(** * Coverage-report analysis scripts: a shallow embedding

    Source: [scripts/analyze-coverage-json.py] (the direct-JSON script) and
    [scripts/analyze-coverage.py] (the HTML script).

    Python [int] is [Z]; [str] is [string], a sequence of characters with
    code points below 256; a [list] is a [list]; a [dict] whose iteration
    order is observed is an association list; a [set] is a [gset].  Python's
    true division is exact on [Q] and raises on a zero divisor; where the
    script compares the floats it computed, their rounding and their order
    are parameters. *)

From Stdlib Require Import ZArith QArith Qround Ascii String List Sorted
  Permutation.
From stdpp Require Import base decidable numbers list sorting gmap strings pretty.

Local Open Scope Z_scope.

(** ** Python primitives used by both scripts *)

Module Py.

(** [str(n)] for an [int]. *)
Definition str (n : Z) : string := pretty n.

(** [sorted(l)] on a list of [int]: a stable merge sort under [<=]. *)
Definition sorted (l : list Z) : list Z := merge_sort Z.le l.

(** [sep.join(l)]. *)
Fixpoint join (sep : string) (l : list string) : string :=
  match l with
  | [] => EmptyString
  | [s] => s
  | s :: rest => s +:+ sep +:+ join sep rest
  end.

(** [l[:n]] for a non-negative literal [n]. *)
Definition slice_to {A} (n : nat) (l : list A) : list A := take n l.

(** [range(start, stop, -1)]: [start, start-1, ...], all strictly above
    [stop]. *)
Definition range_down (start stop : Z) : list Z :=
  (λ k : nat, start - Z.of_nat k) <$> seq 0 (Z.to_nat (start - stop)).

(** [len(l)]. *)
Definition len {A} (l : list A) : Z := Z.of_nat (length l).

(** [sum(l)] on a list of [int]. *)
Definition sum (l : list Z) : Z := foldr Z.add 0 l.

(** [s.endswith(suffix)]. *)
Definition endswith (s suffix : string) : bool :=
  let n := String.length s in
  let m := String.length suffix in
  (m <=? n)%nat && String.eqb (substring (n - m) m s) suffix.

(** The exceptions the scripts can meet, and a computation that returns
    or raises. *)
Inductive exn := KeyError | ZeroDivisionError | OSError.

Inductive result (A : Type) :=
| Ok (a : A)
| Raise (e : exn).
Arguments Ok {A} a.
Arguments Raise {A} e.

#[global] Instance result_ret : MRet result := λ A a, Ok a.
#[global] Instance result_bind : MBind result := λ A B f m,
  match m with
  | Ok a => f a
  | Raise e => Raise e
  end.

(** [a / b] on [int]: the exact quotient, [ZeroDivisionError] on [b = 0]. *)
Definition truediv (a b : Z) : result Q :=
  if b =? 0 then Raise ZeroDivisionError
  else Ok (inject_Z a / inject_Z b)%Q.

(** A generator or comprehension whose element expression can raise:
    the first failure ends it. *)
Definition traverse {A B} (f : A → result B) (l : list A)
    : result (list B) := mapM f l.

(** [s.split('\n')]. *)
Fixpoint split_newline (s : string) : list string :=
  match s with
  | EmptyString => [EmptyString]
  | String c t =>
      if Ascii.eqb c "010" then EmptyString :: split_newline t
      else match split_newline t with
           | h :: r => String c h :: r
           | [] => [String c EmptyString]
           end
  end.

(** [f.readlines()] on a text whose newlines are already translated to
    ["\n"]: every line keeps its terminator. *)
Fixpoint readlines (s : string) : list string :=
  match s with
  | EmptyString => []
  | String c t =>
      if Ascii.eqb c "010" then String c EmptyString :: readlines t
      else match readlines t with
           | h :: r => String c h :: r
           | [] => [String c EmptyString]
           end
  end.

(** [s.split(sep)] for a separator of one character. *)
Fixpoint split (sep : ascii) (s : string) : list string :=
  match s with
  | EmptyString => [EmptyString]
  | String c t =>
      if Ascii.eqb c sep then EmptyString :: split sep t
      else match split sep t with
           | h :: r => String c h :: r
           | [] => [String c EmptyString]
           end
  end.

(** [l[-n:]] for a positive literal [n]. *)
Definition slice_last {A} (n : nat) (l : list A) : list A :=
  drop (length l - n) l.

(** [sorted(l, key=key)]: a stable sort that compares keys with [<]
    alone, here [lt].  It is written as the insertion sort of the same
    result: an element goes behind the elements after it whose key is
    smaller than its own, and in front of the first whose key is not. *)
Fixpoint insert_by {A K} (lt : K → K → bool) (key : A → K) (x : A)
    (l : list A) : list A :=
  match l with
  | [] => [x]
  | y :: more =>
      if lt (key y) (key x) then y :: insert_by lt key x more
      else x :: y :: more
  end.

Definition sorted_by {A K} (lt : K → K → bool) (key : A → K) (l : list A)
    : list A :=
  foldr (insert_by lt key) [] l.

(** [s.find(sub)], with [None] for the answer -1, and
    [s.find(sub, start)] for [0 <= start <= len(s)]. *)
Fixpoint find (sub s : string) : option nat :=
  if String.prefix sub s then Some 0%nat
  else match s with
       | EmptyString => None
       | String _ t => S <$> find sub t
       end.

Fixpoint string_drop (n : nat) (s : string) : string :=
  match n, s with
  | O, _ => s
  | S n', EmptyString => EmptyString
  | S n', String _ t => string_drop n' t
  end.

Definition find_from (sub s : string) (start : nat) : option nat :=
  (λ i, (start + i)%nat) <$> find sub (string_drop start s).

(** [s[a:b]] for [0 <= a <= b <= len(s)]. *)
Definition slice (s : string) (a b : nat) : string := substring a (b - a) s.

(** A function that returns or ends the process with [sys.exit(status)]. *)
Inductive exits (A : Type) :=
| Returns (a : A)
| Exit (status : Z).
Arguments Returns {A} a.
Arguments Exit {A} status.

End Py.

(** ** Range summarizer ([summarize_line_ranges], direct-JSON script) *)

Module Ranges.

(** One rendered range: [str(start)] or [f"{start}-{end}"]. *)
Definition render (start end_ : Z) : string :=
  if start =? end_ then Py.str start
  else Py.str start +:+ "-" +:+ Py.str end_.

(** The loop state: [ranges], [start], [end]. *)
Record st := St { ranges : list string; start : Z; end_ : Z }.

(** One iteration of [for line in sorted_lines[1:]]. *)
Definition step (s : st) (line : Z) : st :=
  if line =? end_ s + 1 then St (ranges s) (start s) line
  else St (ranges s ++ [render (start s) (end_ s)]) line line.

(** The loop, from the state set up before it. *)
Definition run (first : Z) (rest : list Z) : st :=
  fold_left step rest (St [] first first).

(** The value of [ranges] after "Add the last range". *)
Definition line_ranges (lines : list Z) : list string :=
  match Py.sorted lines with
  | [] => []
  | first :: rest =>
      let s := run first rest in
      ranges s ++ [render (start s) (end_ s)]
  end.

Definition summarize_line_ranges (lines : list Z) : string :=
  match lines with
  | [] => EmptyString
  | _ =>
      let rs := line_ranges lines in
      Py.join ", " (Py.slice_to 3 rs)
        +:+ (if (3 <? length rs)%nat then " ..." else EmptyString)
  end.

End Ranges.

(** ** The fragment of Python's [re] used by the attribution heuristic

    A backtracking matcher in continuation-passing style: alternatives are
    tried in the order of Python's engine (a greedy repeat takes as much as
    it can and gives back one character at a time, a lazy repeat takes as
    little as it can, an optional group is tried before it is skipped), and
    the first complete match wins. *)

Module Re.

Definition code (c : ascii) : N := N_of_ascii c.
Definition between (lo hi : N) (c : ascii) : bool :=
  ((lo <=? code c) && (code c <=? hi))%N.

Definition is_lower := between 97 122.
Definition is_upper := between 65 90.
Definition is_digit := between 48 57.
Definition is_underscore (c : ascii) : bool := (code c =? 95)%N.

(** [\s] on [str]: the characters for which [str.isspace()] holds. *)
Definition is_space (c : ascii) : bool :=
  between 9 13 c || between 28 32 c
  || (code c =? 133)%N || (code c =? 160)%N.

(** [\w] on [str]: alphanumeric characters and the underscore. *)
Definition is_word (c : ascii) : bool :=
  is_lower c || is_upper c || is_digit c || is_underscore c
  || (code c =? 170)%N || between 178 179 c || (code c =? 181)%N
  || between 185 186 c || between 188 190 c
  || between 192 214 c || between 216 246 c || between 248 255 c.

(** [.] without flags: anything but a newline. *)
Definition is_dot (c : ascii) : bool := negb (code c =? 10)%N.

(** [[a-zA-Z_]], [[a-zA-Z0-9_]] and [[a-zA-Z0-9_<>]]. *)
Definition ident_start (c : ascii) : bool :=
  is_lower c || is_upper c || is_underscore c.
Definition ident_char (c : ascii) : bool := ident_start c || is_digit c.
Definition ident_char_angle (c : ascii) : bool :=
  ident_char c || (code c =? 60)%N || (code c =? 62)%N.

Inductive re :=
| Lit (s : string)              (* literal text *)
| Cls (p : ascii → bool)        (* one character of a class *)
| Plus (p : ascii → bool)       (* [p+], greedy *)
| Star (p : ascii → bool)       (* [p*], greedy *)
| LazyStar (p : ascii → bool)   (* [p*?] *)
| WordB                         (* [\b] *)
| Cat (a b : re)
| Opt (a : re)                  (* [(...)?], greedy *)
| Grp (n : nat) (a : re).       (* capturing group number [n] *)

(** A match object: the text of the groups that took part. *)
Definition caps := list (nat * string).

(** Where the matcher stands: the character before the position, the
    text from the position on, the groups closed so far. *)
Record mstate := MState { prev : option ascii; rest : string; closed : caps }.

Definition cont := mstate → option caps.

Definition word_before (st : mstate) : bool :=
  match prev st with Some c => is_word c | None => false end.
Definition word_after (st : mstate) : bool :=
  match rest st with String c _ => is_word c | EmptyString => false end.

Fixpoint lit (s : string) (k : cont) (o : option ascii) (t : string)
    (g : caps) : option caps :=
  match s with
  | EmptyString => k (MState o t g)
  | String c s' =>
      match t with
      | String d t' => if Ascii.eqb c d then lit s' k (Some d) t' g else None
      | EmptyString => None
      end
  end.

Fixpoint greedy (p : ascii → bool) (k : cont) (o : option ascii)
    (t : string) (g : caps) : option caps :=
  match t with
  | String c t' =>
      if p c then
        match greedy p k (Some c) t' g with
        | Some r => Some r
        | None => k (MState o t g)
        end
      else k (MState o t g)
  | EmptyString => k (MState o t g)
  end.

Fixpoint lazy (p : ascii → bool) (k : cont) (o : option ascii)
    (t : string) (g : caps) : option caps :=
  match k (MState o t g) with
  | Some r => Some r
  | None =>
      match t with
      | String c t' => if p c then lazy p k (Some c) t' g else None
      | EmptyString => None
      end
  end.

Definition one (p : ascii → bool) (k : cont) (st : mstate) : option caps :=
  match rest st with
  | String c t' => if p c then k (MState (Some c) t' (closed st)) else None
  | EmptyString => None
  end.

(** The text consumed between two positions of the same subject. *)
Definition consumed (from to : string) : string :=
  substring 0 (String.length from - String.length to) from.

Fixpoint exec (r : re) (k : cont) (st : mstate) : option caps :=
  match r with
  | Lit s => lit s k (prev st) (rest st) (closed st)
  | Cls p => one p k st
  | Plus p => one p (λ st', greedy p k (prev st') (rest st') (closed st')) st
  | Star p => greedy p k (prev st) (rest st) (closed st)
  | LazyStar p => lazy p k (prev st) (rest st) (closed st)
  | WordB => if xorb (word_before st) (word_after st) then k st else None
  | Cat a b => exec a (exec b k) st
  | Opt a =>
      match exec a k st with
      | Some r => Some r
      | None => k st
      end
  | Grp n a =>
      exec a (λ st', k (MState (prev st') (rest st')
                          ((n, consumed (rest st) (rest st')) :: closed st')))
           st
  end.

(** [re.search(r, s)]: the match at the leftmost position that has one. *)
Fixpoint search_from (r : re) (o : option ascii) (t : string) : option caps :=
  match exec r (λ st, Some (closed st)) (MState o t []) with
  | Some m => Some m
  | None =>
      match t with
      | String c t' => search_from r (Some c) t'
      | EmptyString => None
      end
  end.

Definition search (r : re) (s : string) : option caps := search_from r None s.

(** [m.group(n)]; every group read by the scripts takes part in every
    match of its pattern (see [group_closed]). *)
Definition group (n : nat) (m : caps) : string :=
  match list_find (λ e, e.1 = n) m with
  | Some (_, (_, s)) => s
  | None => EmptyString
  end.

Declare Scope re_scope.
Delimit Scope re_scope with re.
Bind Scope re_scope with re.
Infix "·" := Cat (at level 60, right associativity) : re_scope.

(** The function-declaration pattern of both scripts, as written there
    and as a term. *)
Definition fn_source : string :=
  "\b(pub\s+)?(\basync\s+)?fn\s+([a-zA-Z_][a-zA-Z0-9_]*)".

Definition fn_pattern : re :=
  (WordB · Opt (Grp 1 (Lit "pub" · Plus is_space))
         · Opt (Grp 2 (WordB · Lit "async" · Plus is_space))
         · Lit "fn" · Plus is_space
         · Grp 3 (Cls ident_start · Star ident_char))%re.

(** The impl-block pattern; the two scripts differ in the class of the
    characters that continue the type name. *)
Definition impl_source_json : string :=
  "impl\s+(?:.*?\s+for\s+)?([a-zA-Z_][a-zA-Z0-9_<>]*)".
Definition impl_source_html : string :=
  "impl\s+(?:.*?\s+for\s+)?([a-zA-Z_][a-zA-Z0-9_]*)".

Definition impl_pattern (tail : ascii → bool) : re :=
  (Lit "impl" · Plus is_space
     · Opt (LazyStar is_dot · Plus is_space · Lit "for" · Plus is_space)
     · Grp 1 (Cls ident_start · Star tail))%re.

End Re.


(** ** Coverage records shared by both scripts *)

(** A trace object of the report: its ['line'], and its ['stats']
    mapping, which may be absent and may lack the ['Line'] key.  A trace
    is taken with its ['line'], the one key the scripts read from it
    besides the hit count. *)
Record trace := Trace { line : Z; stats : option (option Z) }.

(** [(covered / total * 100) if total > 0 else 0], the expression both
    scripts use for a file's percentage and for the overall one. *)
Definition percentage (covered total : Z) : Py.result Q :=
  if 0 <? total
  then q ← Py.truediv covered total; Py.Ok (q * 100)%Q
  else Py.Ok 0%Q.

(** The attribution loop, whose body the two scripts share word for word
    but for the impl-block pattern: [idxs] is the range walked, and the
    result is [Some label] when a [return] inside the loop is reached.
    The indices of the range are positive ([scan_range_positive]), so
    [lines[i]] never counts from the end of the list. *)
Fixpoint scan_lines (impl_re : Re.re) (lines : list string) (idxs : list Z)
    : option string :=
  match idxs with
  | [] => None
  | i :: more =>
      if i <? Py.len lines then
        match lines !! Z.to_nat i with
        | Some ln =>
            match Re.search Re.fn_pattern ln with
            | Some fn_match => Some (Re.group 3 fn_match)
            | None =>
                match Re.search impl_re ln with
                | Some impl_match => Some ("impl " +:+ Re.group 1 impl_match)
                | None => scan_lines impl_re lines more
                end
            end
        | None => scan_lines impl_re lines more
        end
      else scan_lines impl_re lines more
  end.

(** [range(max(0, line_num - 1), max(0, line_num - window), -1)]. *)
Definition scan_range (window line_num : Z) : list Z :=
  Py.range_down (Z.max 0 (line_num - 1)) (Z.max 0 (line_num - window)).

(** ** The direct-JSON script, [analyze-coverage-json.py] *)

Module Json.

Record analysis := Analysis {
  path : string;
  total_lines : Z;
  covered_lines : Z;
  uncovered_lines : Z;
  coverage_percent : Q;
  uncovered_line_numbers : list Z
}.

(** [trace.get('stats', {}).get('Line', 0)]. *)
Definition hits (t : trace) : Z :=
  match stats t with
  | Some (Some h) => h
  | _ => 0
  end.

Definition analyze_file_coverage (file_path : string) (traces : list trace)
    : Py.result analysis :=
  let total_lines := Py.len traces in
  let covered_lines :=
    Py.sum ((λ _, 1) <$> filter (λ t, 0 < hits t) traces) in
  let uncovered_lines := total_lines - covered_lines in
  coverage_percent ← percentage covered_lines total_lines;
  let uncovered_line_nums := line <$> filter (λ t, hits t = 0) traces in
  Py.Ok (Analysis file_path total_lines covered_lines uncovered_lines
           coverage_percent uncovered_line_nums).

(** What opening a path for reading finds. *)
Inductive file :=
| Missing                  (* [file_path.exists()] is false *)
| Unreadable               (* it exists; [open] or [readlines] raises *)
| Text (content : string). (* it exists and decodes to this text *)

Definition disk := string → file.

(** [with open(file_path, 'r') as f: lines = f.readlines()]. *)
Definition read_lines (d : disk) (file_path : string)
    : Py.result (list string) :=
  match d file_path with
  | Text content => Py.Ok (Py.readlines content)
  | _ => Py.Raise Py.OSError
  end.

Definition impl_pattern : Re.re := Re.impl_pattern Re.ident_char_angle.

(** The body of the [try]: [Ok (Some label)] is a [return] from inside the
    loop, [Ok None] is falling out of the block. *)
Definition try_body (d : disk) (file_path : string) (line_num : Z)
    : Py.result (option string) :=
  lines ← read_lines d file_path;
  Py.Ok (scan_lines impl_pattern lines (scan_range 30 line_num)).

Definition extract_function_at_line (d : disk) (file_path : string)
    (line_num : Z) : string :=
  match d file_path with
  | Missing => "unknown"
  | _ =>
      match try_body d file_path line_num with
      | Py.Ok (Some label) => label
      | Py.Ok None => "unknown"
      | Py.Raise _ => "unknown"   (* [except Exception: pass] *)
      end
  end.

(** [func_lines[func_name].append(line_num)] on a [defaultdict(list)],
    kept in insertion order. *)
Fixpoint append_to (func_lines : list (string * list Z)) (func_name : string)
    (line_num : Z) : list (string * list Z) :=
  match func_lines with
  | [] => [(func_name, [line_num])]
  | (name, lines) :: more =>
      if String.eqb name func_name then (name, lines ++ [line_num]) :: more
      else (name, lines) :: append_to more func_name line_num
  end.

Definition group_uncovered_by_function (d : disk) (file_path : string)
    (uncovered_lines : list Z) : list (string * list Z) :=
  fold_left
    (λ func_lines line_num,
       append_to func_lines
         (extract_function_at_line d file_path line_num) line_num)
    (Py.slice_to 50 uncovered_lines) [].

(** [file_path.exists()], the first statement of
    [extract_function_at_line], stands before the [try].  It answers
    [False] for the few errors that mean "no such file" and raises every
    other [OSError] of the underlying [stat] again: a name longer than the
    system allows, a directory that may not be searched. *)
Inductive stat :=
| StatFails          (* [exists()] raises [OSError] *)
| Stat (f : file).   (* [exists()] answers, and the file is as above *)

Definition file_system := string → stat.

(** [extract_function_at_line] with that call included: it raises what
    [exists()] raises, and is the function above once [exists()] has
    answered. *)
Definition extract_function_at_line_stat (fs : file_system)
    (file_path : string) (line_num : Z) : Py.result string :=
  match fs file_path with
  | StatFails => Py.Raise Py.OSError
  | Stat f => Py.Ok (extract_function_at_line (λ _, f) file_path line_num)
  end.

(** [group_uncovered_by_function] on such a file system: the loop ends at
    the first exception, which nothing in it catches. *)
Definition group_uncovered_by_function_stat (fs : file_system)
    (file_path : string) (uncovered_lines : list Z)
    : Py.result (list (string * list Z)) :=
  fold_left
    (λ acc line_num,
       func_lines ← acc;
       func_name ← extract_function_at_line_stat fs file_path line_num;
       Py.Ok (append_to func_lines func_name line_num))
    (Py.slice_to 50 uncovered_lines) (Py.Ok []).

(** The loop of [print_summary] over the files it shows, for the groups
    it computes: one call of [group_uncovered_by_function] for every file
    with coverable and uncovered lines.  Neither [print_summary] nor
    [main] catches an exception raised here. *)
Definition print_summary_groups (fs : file_system)
    (sorted_analyses : list analysis)
    : Py.result (list (list (string * list Z))) :=
  Py.traverse
    (λ a,
       if (0 <? total_lines a) && (0 <? uncovered_lines a)
       then group_uncovered_by_function_stat fs (path a)
              (uncovered_line_numbers a)
       else Py.Ok [])
    sorted_analyses.

(** [print_summary], up to the "Overall Coverage" line: the analyses of
    the files kept, and the percentage printed ([None] when the script
    prints "No coverage data found"). *)
Fixpoint all_analyses (traces : list (string * list trace))
    : Py.result (list analysis) :=
  match traces with
  | [] => Py.Ok []
  | (file_path, file_traces) :: more =>
      if Py.endswith file_path ".rs" && negb (Py.len file_traces =? 0) then
        a ← analyze_file_coverage file_path file_traces;
        rest ← all_analyses more;
        Py.Ok (a :: rest)
      else all_analyses more
  end.

Definition overall_coverage (analyses : list analysis)
    : option (Py.result Q) :=
  match analyses with
  | [] => None
  | _ =>
      let total_all_lines := Py.sum (total_lines <$> analyses) in
      let covered_all_lines := Py.sum (covered_lines <$> analyses) in
      Some (percentage covered_all_lines total_all_lines)
  end.

(** [print_summary]: the path shown for a file. *)
Definition shorten_path (short_path : string) : string :=
  if (70 <? String.length short_path)%nat then
    let parts := Py.split "/" short_path in
    Py.join "/" ("..." :: Py.slice_last 3 parts)
  else short_path.

(** [print_summary]: the order in which the files are shown.  The key is
    the percentage as the script holds it, a binary64 float: [float_of] is
    the float computed for an exact percentage (two roundings, so distinct
    percentages can give one float) and [lt] is [<] on floats. *)
Definition sorted_analyses {F} (float_of : Q → F) (lt : F → F → bool)
    (analyses : list analysis) : list analysis :=
  Py.sorted_by lt (λ x, float_of (coverage_percent x)) analyses.

End Json.

(** ** The HTML script, [analyze-coverage.py] *)

Module Html.

(** One entry of the report's ['files']: ['path'] and ['content'] are
    read unconditionally, ['traces'] with a default. *)
Record file_data := FileData {
  fd_path : list string;
  fd_content : string;
  fd_traces : option (list trace)
}.

Record analysis := Analysis {
  path : string;
  total_lines : Z;
  covered_lines : Z;
  uncovered_lines : Z;
  coverage_percent : Q;
  uncovered_line_numbers : list Z;
  content : string
}.

(** [trace['stats']['Line']]. *)
Definition hits (t : trace) : Py.result Z :=
  match stats t with
  | Some (Some h) => Py.Ok h
  | _ => Py.Raise Py.KeyError
  end.

Definition analyze_file_coverage (fd : file_data) : Py.result analysis :=
  let path := Py.join "/" (fd_path fd) in
  let content := fd_content fd in
  let traces := default [] (fd_traces fd) in
  let total_lines := Py.len traces in
  counted ← Py.traverse (λ t, h ← hits t; Py.Ok (t, h)) traces;
  let covered_lines :=
    Py.sum ((λ _, 1) <$> filter (λ th, 0 < th.2) counted) in
  let uncovered_lines := total_lines - covered_lines in
  coverage_percent ← percentage covered_lines total_lines;
  let uncovered_line_nums :=
    (λ th, line th.1) <$> filter (λ th, th.2 = 0) counted in
  Py.Ok (Analysis path total_lines covered_lines uncovered_lines
           coverage_percent uncovered_line_nums content).

Definition impl_pattern : Re.re := Re.impl_pattern Re.ident_char.

Definition extract_function_at_line (content : string) (line_num : Z)
    : string :=
  let lines := Py.split_newline content in
  match scan_lines impl_pattern lines (scan_range 20 line_num) with
  | Some label => label
  | None => "unknown"
  end.

(** One iteration of the loop of [find_uncovered_functions], on the pair
    of [uncovered_funcs] and [seen_funcs]. *)
Definition find_step (content : string)
    (acc : list (Z * string) * gset string) (line_num : Z)
    : list (Z * string) * gset string :=
  let func_name := extract_function_at_line content line_num in
  if bool_decide (func_name ∉ acc.2)
     && negb (String.eqb func_name "unknown")
  then (acc.1 ++ [(line_num, func_name)], acc.2 ∪ {[func_name]})
  else acc.

Definition find_uncovered_functions (file_analysis : analysis)
    : list (Z * string) :=
  (fold_left (find_step (content file_analysis))
     (uncovered_line_numbers file_analysis) ([], ∅)).1.

(** [print_summary], the "Overall Coverage" value. *)
Definition overall_coverage (all_analyses : list analysis) : Py.result Q :=
  let total_all_lines := Py.sum (total_lines <$> all_analyses) in
  let covered_all_lines := Py.sum (covered_lines <$> all_analyses) in
  percentage covered_all_lines total_all_lines.

(** [print_summary]: the order in which the files are shown, the key
    being the float the script holds, as in the direct-JSON script. *)
Definition sorted_analyses {F} (float_of : Q → F) (lt : F → F → bool)
    (all_analyses : list analysis) : list analysis :=
  Py.sorted_by lt (λ x, float_of (coverage_percent x)) all_analyses.

(** [extract_var_data] on the text of the report, [loads] standing for
    [json.loads] ([None] when it raises [JSONDecodeError]). *)
Definition extract_var_data {J} (loads : string → option J) (content : string)
    : Py.exits J :=
  match Py.find "var data = " content with
  | None => Py.Exit 1
  | Some data_start =>
      let json_start := (data_start + String.length "var data = ")%nat in
      match Py.find_from ";" content json_start with
      | None => Py.Exit 1
      | Some json_end =>
          let json_str := Py.slice content json_start json_end in
          match loads json_str with
          | Some data => Py.Returns data
          | None => Py.Exit 1
          end
      end
  end.

End Html.

(** ** Auxiliary notions used in the statements *)

(** The number of places in [l] (read after a current run end [e]) where
    the loop closes a range: every element that is not its predecessor
    plus one. *)
Fixpoint breaks (e : Z) (l : list Z) : nat :=
  match l with
  | [] => 0
  | y :: more => (if y =? e + 1 then 0 else 1) + breaks y more
  end.

(** The line terminator, and a file used in the examples: a function
    declaration on its first line, then twenty-five empty lines. *)
Definition nl : string := String "010" EmptyString.

Definition far_declaration : string :=
  "fn far() {" +:+ foldr String.append EmptyString (replicate 25 nl).

(** A pattern whose last item is the capturing group [n]. *)
Fixpoint ends_in_group (n : nat) (r : Re.re) : bool :=
  match r with
  | Re.Grp m _ => (m =? n)%nat
  | Re.Cat _ b => ends_in_group n b
  | _ => false
  end.

(** A line on which one of the two declaration patterns has a match. *)
Definition declares (impl_re : Re.re) (ln : string) : bool :=
  match Re.search Re.fn_pattern ln, Re.search impl_re ln with
  | None, None => false
  | _, _ => true
  end.

(** [d[name]] on a [dict] kept as an association list. *)
Fixpoint lookup_label (name : string) (d : list (string * list Z))
    : option (list Z) :=
  match d with
  | [] => None
  | (k, v) :: more => if String.eqb k name then Some v else lookup_label name more
  end.

(** A trace that carries a non-negative hit count. *)
Definition carries_hits (t : trace) : Prop :=
  ∃ h, stats t = Some (Some h) ∧ 0 ≤ h.

(** A list as the value of a [dict] entry: an entry exists only once
    something was appended to it. *)
Definition entry (lines : list Z) : option (list Z) :=
  match lines with
  | [] => None
  | _ => Some lines
  end.

(** What holds of [uncovered_funcs] and [seen_funcs] in
    [find_uncovered_functions] once the lines [done] are processed, [label]
    being the attribution of a line. *)
Definition find_invariant (label : Z → string) (done : list Z)
    (acc : list (Z * string) * gset string) : Prop :=
  (∀ f, f ∈ acc.2 ↔ f ∈ acc.1.*2)
  ∧ NoDup acc.1.*2
  ∧ (∀ n f, (n, f) ∈ acc.1 →
            f ≠ "unknown" ∧ label n = f
            ∧ ∃ l1 l2, done = l1 ++ n :: l2 ∧ ∀ m, m ∈ l1 → label m ≠ f)
  ∧ (∀ m, m ∈ done → label m ≠ "unknown" → label m ∈ acc.1.*2).

(** The arithmetic mean of a list of percentages, for comparison with the
    overall percentage the scripts print. *)
Definition mean (ps : list Q) : Q :=
  (foldr Qplus 0 ps / inject_Z (Py.len ps))%Q.

(** Two files of unequal size used in the examples: one covered line in
    the first, three uncovered lines in the second. *)
Definition small_file : list trace := [Trace 1 (Some (Some 4))].
Definition large_file : list trace :=
  [Trace 1 (Some (Some 0)); Trace 2 (Some (Some 0)); Trace 3 (Some (Some 0))].

Definition sample_report : list (string * list trace) :=
  [("src/a.rs", small_file); ("src/b.rs", large_file)].

Definition sample_files : list Html.file_data :=
  [Html.FileData ["src"; "a.rs"] "fn a() {}" (Some small_file);
   Html.FileData ["src"; "b.rs"] "fn b() {}" (Some large_file)].

(** The loop of [summarize_line_ranges] with every range kept as the pair
    of its bounds instead of its text. *)
Record pair_state :=
  PairState { pairs : list (Z * Z); run_start : Z; run_end : Z }.

Definition pair_step (s : pair_state) (line : Z) : pair_state :=
  if line =? run_end s + 1 then PairState (pairs s) (run_start s) line
  else PairState (pairs s ++ [(run_start s, run_end s)]) line line.

Definition range_pairs (lines : list Z) : list (Z * Z) :=
  match Py.sorted lines with
  | [] => []
  | first :: rest =>
      let s := fold_left pair_step rest (PairState [] first first) in
      pairs s ++ [(run_start s, run_end s)]
  end.

(** The bounds of a list of ranges, in the order they are written. *)
Definition bounds (l : list (Z * Z)) : list Z :=
  l ≫= λ p, [p.1; p.2].

(** What the pair loop keeps true once the lines [done] are processed. *)
Definition pair_invariant (done : list Z) (s : pair_state) : Prop :=
  (∀ x, x ∈ done ↔
        (∃ a b, (a, b) ∈ pairs s ∧ a ≤ x ≤ b) ∨ run_start s ≤ x ≤ run_end s)
  ∧ run_start s ≤ run_end s
  ∧ StronglySorted Z.le (bounds (pairs s))
  ∧ (∀ x, x ∈ bounds (pairs s) → x ≤ run_start s).

(** Every character of a string is in a class; a string is an identifier:
    a letter or underscore, then characters of the class [tail]. *)
Fixpoint string_forall (p : ascii → bool) (s : string) : bool :=
  match s with
  | EmptyString => true
  | String c t => p c && string_forall p t
  end.

Definition identifier (tail : ascii → bool) (s : string) : bool :=
  match s with
  | EmptyString => false
  | String c t => Re.ident_start c && string_forall tail t
  end.

(** A trace whose hit count is present. *)
Definition has_hits (t : trace) : Prop := ∃ h, stats t = Some (Some h).

(** The distinct elements of a list, each at the place of its first
    occurrence. *)
Fixpoint first_occurrences (l : list string) : list string :=
  match l with
  | [] => []
  | x :: more => x :: filter (λ y, y ≠ x) (first_occurrences more)
  end.

(** A path whose file name is longer than the 255 bytes a Linux file
    system allows, and a file system that holds no file and refuses such
    names. *)
Definition long_path : string :=
  "src/" +:+ foldr String.append EmptyString (replicate 300 "a") +:+ ".rs".

Definition strict_names : Json.file_system :=
  λ file_path,
    if (255 <? String.length file_path)%nat then Json.StatFails
    else Json.Stat Json.Missing.

(** Two keys that a sort by [lt] does not order: neither is smaller than
    the other. *)
Definition tied {K} (lt : K → K → bool) (a b : K) : bool :=
  negb (lt a b) && negb (lt b a).

(** Two analyses used in the examples, of 2 lines in 3 and 33 lines in 50:
    percentages that differ and have the same whole part. *)
Definition two_in_three : Json.analysis :=
  Json.Analysis "src/a.rs" 3 2 1 (200 # 3) [3].
Definition thirty_three_in_fifty : Json.analysis :=
  Json.Analysis "src/b.rs" 50 33 17 (3300 # 50) (Z.of_nat <$> seq 34 17).

(** A character other than the semicolon. *)
Definition not_semicolon (c : ascii) : bool := negb (Ascii.eqb c ";").

(** A small source file used in the examples. *)
Definition sample_source : string :=
  "struct A;" +:+ nl +:+ "impl A {" +:+ nl +:+ "    pub fn go(&self) {"
  +:+ nl +:+ "        let x = 1;" +:+ nl +:+ "    }" +:+ nl +:+ "}".

(** The label one line gives: the function name if the
    function-declaration pattern has a match, else the impl label if the
    impl-block pattern has one. *)
Definition line_label (impl_re : Re.re) (ln : string) : option string :=
  match Re.search Re.fn_pattern ln with
  | Some fn_match => Some (Re.group 3 fn_match)
  | None =>
      match Re.search impl_re ln with
      | Some impl_match => Some ("impl " +:+ Re.group 1 impl_match)
      | None => None
      end
  end.

(** * Properties *)

(** ** The matcher *)

Section regex_facts.
Import Re.

Lemma lit_calls s k o t g res :
  lit s k o t g = Some res → ∃ st, k st = Some res.
Proof.
  revert o t. induction s as [|c s IH]; intros o t; simpl; [by eauto|].
  destruct t as [|d t]; [done|]. destruct (Ascii.eqb c d); [|done]. apply IH.
Qed.

Lemma greedy_calls p k o t g res :
  greedy p k o t g = Some res → ∃ st, k st = Some res.
Proof.
  revert o. induction t as [|c t IH]; intros o; simpl; [by eauto|].
  destruct (p c); [|by eauto].
  destruct (greedy p k (Some c) t g) eqn:E; [|by eauto].
  intros [= <-]. by eapply IH.
Qed.

Lemma lazy_calls p k o t g res :
  lazy p k o t g = Some res → ∃ st, k st = Some res.
Proof.
  revert o. induction t as [|c t IH]; intros o; simpl.
  - destruct (k _) eqn:E; [|done]. intros [= <-]. eauto.
  - destruct (k _) eqn:E; [intros [= <-]; by eauto|].
    destruct (p c); [|done]. apply IH.
Qed.

Lemma one_calls p k st res :
  one p k st = Some res → ∃ st', k st' = Some res.
Proof.
  unfold one. destruct (rest st) as [|c t]; [done|].
  destruct (p c); [by eauto|done].
Qed.

(** A match is always handed over by the continuation. *)
Lemma exec_calls r k st res :
  exec r k st = Some res → ∃ st', k st' = Some res.
Proof.
  revert k st. induction r as [s|p|p|p|p| |a IHa b IHb|a IHa|n a IHa];
    intros k st; simpl.
  - apply lit_calls.
  - apply one_calls.
  - intros (st' & H)%one_calls. by apply greedy_calls in H.
  - apply greedy_calls.
  - apply lazy_calls.
  - destruct (xorb _ _); [by eauto|done].
  - intros (st' & H)%IHa. by apply IHb in H.
  - destruct (exec a k st) eqn:E; [|by eauto].
    intros [= <-]. by apply IHa in E.
  - intros (st' & H)%IHa. eauto.
Qed.

(** A pattern that ends in group [n] closes it last in every match. *)
Lemma exec_ends_in_group n r k st res :
  ends_in_group n r = true →
  exec r k st = Some res →
  ∃ st' s more, k st' = Some res ∧ closed st' = (n, s) :: more.
Proof.
  revert k st. induction r as [s|p|p|p|p| |a IHa b IHb|a IHa|m a IHa];
    intros k st; simpl; try done.
  - intros Hb (st1 & H)%exec_calls. by apply (IHb k st1).
  - intros ->%Nat.eqb_eq (st1 & H)%exec_calls. eauto.
Qed.

Lemma search_ends_in_group n r ln m :
  ends_in_group n r = true →
  search r ln = Some m → ∃ s more, m = (n, s) :: more.
Proof.
  intros Hn. unfold search. generalize (@None ascii) as o.
  assert (∀ st, exec r (λ st', Some (closed st')) st = Some m →
                ∃ s more, m = (n, s) :: more) as Hexec.
  { intros st (st' & s & more & [= <-] & ->)%(exec_ends_in_group n); eauto. }
  induction ln as [|c ln IH]; intros o; simpl.
  - destruct (exec r _ _) eqn:E; [|done]. intros [= <-]. eauto.
  - destruct (exec r _ _) eqn:E; [|by apply IH]. intros [= <-]. eauto.
Qed.

(** The groups the scripts read took part in the match: group 3 of the
    function-declaration pattern and group 1 of the impl-block pattern. *)
Lemma group_closed ln m :
  (search fn_pattern ln = Some m → ∃ s more, m = (3%nat, s) :: more)
  ∧ (∀ tail, search (impl_pattern tail) ln = Some m →
             ∃ s more, m = (1%nat, s) :: more).
Proof.
  split; [|intros tail]; by apply search_ends_in_group.
Qed.

End regex_facts.

(** ** Range summarizer *)

Section range_facts.
Import Ranges.

Lemma step_ranges_length s y :
  length (ranges (step s y))
  = (length (ranges s) + (if (y =? end_ s + 1)%Z then 0 else 1))%nat.
Proof.
  unfold step. destruct (y =? end_ s + 1); simpl; [lia|].
  rewrite length_app. simpl. lia.
Qed.

Lemma step_end s y : end_ (step s y) = y.
Proof. unfold step. by destruct (y =? end_ s + 1). Qed.

Lemma fold_step_length l s :
  length (ranges (fold_left step l s))
  = (length (ranges s) + breaks (end_ s) l)%nat.
Proof.
  revert s. induction l as [|y l IH]; intros s; simpl; [lia|].
  rewrite IH, step_ranges_length, step_end. lia.
Qed.

(** The number of ranges is decided by the sorted list alone. *)
Lemma line_ranges_length lines :
  length (line_ranges lines)
  = match Py.sorted lines with
    | [] => 0%nat
    | x :: more => S (breaks x more)
    end.
Proof.
  unfold line_ranges. destruct (Py.sorted lines) as [|x more]; [done|].
  unfold run. rewrite length_app, fold_step_length. simpl. lia.
Qed.

Lemma sorted_Sorted l : StronglySorted Z.le (Py.sorted l).
Proof. apply StronglySorted_merge_sort; apply _. Qed.

Lemma sorted_Permutation l : Py.sorted l ≡ₚ l.
Proof. apply merge_sort_Permutation. Qed.

(** [sorted] returns the one ascending arrangement of its input. *)
Lemma sorted_unique l s :
  StronglySorted Z.le s → s ≡ₚ l → Py.sorted l = s.
Proof.
  intros Hs Hp. apply (StronglySorted_unique Z.le); [apply sorted_Sorted|done|].
  by rewrite sorted_Permutation.
Qed.

Lemma sorted_perm l l' : l ≡ₚ l' → Py.sorted l = Py.sorted l'.
Proof.
  intros Hp. apply sorted_unique; [apply sorted_Sorted|].
  by rewrite sorted_Permutation.
Qed.

(** A second copy of [x] lands next to the first one. *)
Lemma sorted_duplicate x l s1 s2 :
  Py.sorted l = s1 ++ x :: s2 → Py.sorted (x :: l) = s1 ++ x :: x :: s2.
Proof.
  intros Hs. apply sorted_unique.
  - pose proof (sorted_Sorted l) as H. rewrite Hs in H.
    revert H. rewrite !StronglySorted_app, !StronglySorted_cons.
    intros (H1 & H2 & H3 & H4). split_and!; [|done| |done..].
    + intros a b Ha Hb. apply (H1 a b Ha).
      rewrite !elem_of_cons in Hb. rewrite elem_of_cons. tauto.
    + constructor; [lia|done].
  - rewrite <-(sorted_Permutation l), Hs.
    by rewrite <-!Permutation_middle.
Qed.

Lemma breaks_duplicate e s1 x s2 :
  breaks e (s1 ++ x :: x :: s2) = S (breaks e (s1 ++ x :: s2)).
Proof.
  revert e. induction s1 as [|a s1 IH]; intros e; simpl.
  - destruct (x =? x + 1) eqn:E; [lia|]. lia.
  - rewrite IH. lia.
Qed.

(** C3: [summarize_line_ranges] gives "1-3, 7, 9-10" on [1,2,3,7,9,10]
    (three ranges, no marker), the first three ranges and the marker
    " ..." on [1,2,5,6,9,10,13,14], and the empty string on the empty
    list. *)
Theorem summarize_line_ranges_examples :
  summarize_line_ranges [1; 2; 3; 7; 9; 10] = "1-3, 7, 9-10"
  ∧ summarize_line_ranges [1; 2; 5; 6; 9; 10; 13; 14] = "1-2, 5-6, 9-10 ..."
  ∧ summarize_line_ranges [] = "".
Proof. split_and!; vm_compute; reflexivity. Qed.

(** C4: [summarize_line_ranges] gives the same string on a list and on
    any permutation of it; [5,3,4] and [3,4,5] both give "3-5". *)
Theorem summarize_line_ranges_permutation :
  (∀ l l' : list Z,
     l ≡ₚ l' → summarize_line_ranges l = summarize_line_ranges l')
  ∧ summarize_line_ranges [5; 3; 4] = "3-5"
  ∧ summarize_line_ranges [3; 4; 5] = "3-5".
Proof.
  split; [|split; vm_compute; reflexivity].
  intros l l' Hp. unfold summarize_line_ranges, line_ranges.
  rewrite (sorted_perm l l' Hp).
  destruct l as [|x l], l' as [|x' l']; [done| | |done].
  - by apply Permutation_nil_cons in Hp.
  - symmetry in Hp. by apply Permutation_nil_cons in Hp.
Qed.

Lemma summarize_line_ranges_permutation_witness :
  [5; 3; 4] ≡ₚ [3; 4; 5]
  ∧ summarize_line_ranges [5; 3; 4] = summarize_line_ranges [3; 4; 5].
Proof.
  assert ([5; 3; 4] ≡ₚ [3; 4; 5]) as Hp
    by (apply (bool_decide_unpack _); vm_compute; reflexivity).
  split; [exact Hp|].
  exact (proj1 summarize_line_ranges_permutation [5; 3; 4] [3; 4; 5] Hp).
Defined.

(** C1, as stated, fails: [3,3,4] is summarized as "3, 3-4", while the
    same list without its duplicate is summarized as "3-4". *)
Lemma summarize_line_ranges_duplicate_counterexample :
  summarize_line_ranges [3; 3; 4] = "3, 3-4"
  ∧ summarize_line_ranges (remove_dups [3; 3; 4]) = "3-4"
  ∧ summarize_line_ranges [3; 3; 4]
    ≠ summarize_line_ranges (remove_dups [3; 3; 4]).
Proof. split_and!; vm_compute; [reflexivity..|discriminate]. Qed.

(** C1, amended: a value equal to the current run's end does not extend
    the run: it closes it and opens a new run at that value, so one more
    copy of a value already in the list gives exactly one more range. *)
Theorem line_ranges_duplicate :
  (∀ s, step s (end_ s)
        = St (ranges s ++ [render (start s) (end_ s)]) (end_ s) (end_ s))
  ∧ (∀ (x : Z) (l : list Z),
       x ∈ l →
       length (line_ranges (x :: l)) = S (length (line_ranges l))).
Proof.
  split.
  - intros s. unfold step.
    destruct (end_ s =? end_ s + 1) eqn:E; [lia|done].
  - intros x l Hx. rewrite !line_ranges_length.
    assert (x ∈ Py.sorted l) as Hs by (by rewrite sorted_Permutation).
    apply list_elem_of_split in Hs as (s1 & s2 & Hs).
    rewrite (sorted_duplicate x l s1 s2 Hs), Hs.
    destruct s1 as [|a s1]; simpl.
    + destruct (x =? x + 1) eqn:E; [lia|]. lia.
    + by rewrite breaks_duplicate.
Qed.

Lemma line_ranges_duplicate_witness :
  3 ∈ [3; 4]
  ∧ length (line_ranges (3 :: [3; 4])) = S (length (line_ranges [3; 4])).
Proof.
  assert (3 ∈ [3; 4]) as Hx
    by (apply (bool_decide_unpack _); vm_compute; reflexivity).
  split; [exact Hx|].
  exact (proj2 line_ranges_duplicate 3 [3; 4] Hx).
Defined.

End range_facts.

(** ** Attribution heuristic *)

Section attribution_facts.

Lemma elem_of_range_down start stop i :
  i ∈ Py.range_down start stop ↔ stop < i ≤ start.
Proof.
  unfold Py.range_down. rewrite list_elem_of_fmap. split.
  - intros (k & -> & Hk). apply elem_of_seq in Hk. lia.
  - intros Hi. exists (Z.to_nat (start - i)). split; [lia|].
    apply elem_of_seq. lia.
Qed.

(** The indices the loop visits: above [max(0, N - window)], up to
    [N - 1], and never [0]. *)
Lemma elem_of_scan_range window n i :
  i ∈ scan_range window n ↔ Z.max 0 (n - window) < i ≤ n - 1.
Proof. unfold scan_range. rewrite elem_of_range_down. lia. Qed.

Lemma scan_lines_no_declaration impl_re lines idxs :
  (∀ i ln, i ∈ idxs → lines !! Z.to_nat i = Some ln →
           declares impl_re ln = false) →
  scan_lines impl_re lines idxs = None.
Proof.
  induction idxs as [|i idxs IH]; intros H; simpl; [done|].
  assert (scan_lines impl_re lines idxs = None) as Hrest.
  { apply IH. intros j ln Hj. apply H. by right. }
  destruct (i <? Py.len lines); [|done].
  destruct (lines !! Z.to_nat i) as [ln|] eqn:Hln; [|done].
  specialize (H i ln (list_elem_of_here _ _) Hln). unfold declares in H.
  destruct (Re.search Re.fn_pattern ln); [done|].
  by destruct (Re.search impl_re ln).
Qed.

Lemma scan_range_positive window n :
  Forall (λ i, 0 < i) (scan_range window n).
Proof.
  apply Forall_forall. intros i Hi. apply elem_of_scan_range in Hi. lia.
Qed.

(** Walking positive indices never reads the element at index [0]. *)
Lemma scan_lines_first_line impl_re l0 l0' lines idxs :
  Forall (λ i, 0 < i) idxs →
  scan_lines impl_re (l0 :: lines) idxs
  = scan_lines impl_re (l0' :: lines) idxs.
Proof.
  induction 1 as [|i idxs Hi _ IH]; simpl; [done|].
  rewrite IH. unfold Py.len. simpl length.
  destruct (i <? _); [|done].
  destruct (Z.to_nat i) as [|k] eqn:Hk; [lia|done].
Qed.

(** A window condition can be checked by running over the range. *)
Lemma window_by_check impl_re (lines : list string) window n :
  forallb (λ i, match lines !! Z.to_nat i with
                | Some ln => negb (declares impl_re ln)
                | None => true
                end) (scan_range window n) = true →
  ∀ i ln, Z.max 0 (n - window) < i ≤ n - 1 →
          lines !! Z.to_nat i = Some ln → declares impl_re ln = false.
Proof.
  intros Hall i ln Hi Hln. rewrite forallb_forall in Hall.
  assert (In i (scan_range window n)) as Hin.
  { apply list_elem_of_In, elem_of_scan_range, Hi. }
  specialize (Hall i Hin). rewrite Hln in Hall.
  by apply negb_true_iff in Hall.
Qed.

(** C2, as stated, fails in both scripts: in the two-line file "x",
    "fn foo" no line before line 2 declares anything, yet line 2 is
    attributed to "foo", because the scan starts on the target line. *)
Lemma extract_function_at_line_prior_lines_counterexample :
  let content := "x" +:+ nl +:+ "fn foo" in
  (∀ i ln, 0 ≤ i → 2 - 21 ≤ i ≤ 2 - 2 →
           Py.split_newline content !! Z.to_nat i = Some ln →
           declares Html.impl_pattern ln = false)
  ∧ Html.extract_function_at_line content 2 = "foo"
  ∧ (∀ i ln, 0 ≤ i → 2 - 31 ≤ i ≤ 2 - 2 →
             Py.readlines content !! Z.to_nat i = Some ln →
             declares Json.impl_pattern ln = false)
  ∧ Json.extract_function_at_line (λ _, Json.Text content) "src/lib.rs" 2
    = "foo".
Proof.
  split_and!; [|vm_compute; reflexivity| |vm_compute; reflexivity].
  - intros i ln H0 Hi. replace i with 0 by lia.
    intros [= <-]. vm_compute. reflexivity.
  - intros i ln H0 Hi. replace i with 0 by lia.
    intros [= <-]. vm_compute. reflexivity.
Qed.

(** C2, amended: [extract_function_at_line] returns "unknown" when no
    line it scans matches either pattern, whatever the rest of the file
    holds. The lines scanned for target line N are those of 0-based
    index i with max(0, N - w) < i <= N - 1, for w = 30 in the
    direct-JSON script and w = 20 in the HTML script: the target line
    itself and at most w - 2 lines before it. *)
Theorem extract_function_at_line_unknown :
  (∀ content n,
     (∀ i ln, Z.max 0 (n - 20) < i ≤ n - 1 →
              Py.split_newline content !! Z.to_nat i = Some ln →
              declares Html.impl_pattern ln = false) →
     Html.extract_function_at_line content n = "unknown")
  ∧ (∀ d file_path n,
       (∀ content i ln,
          d file_path = Json.Text content →
          Z.max 0 (n - 30) < i ≤ n - 1 →
          Py.readlines content !! Z.to_nat i = Some ln →
          declares Json.impl_pattern ln = false) →
       Json.extract_function_at_line d file_path n = "unknown").
Proof.
  split.
  - intros content n H. unfold Html.extract_function_at_line.
    rewrite scan_lines_no_declaration; [done|].
    intros i ln Hi. apply H. by apply elem_of_scan_range.
  - intros d file_path n H.
    unfold Json.extract_function_at_line, Json.try_body, Json.read_lines.
    destruct (d file_path) as [| |content] eqn:Hd; [done..|]. simpl.
    rewrite scan_lines_no_declaration; [done|].
    intros i ln Hi. apply (H content); [done|].
    by apply elem_of_scan_range.
Qed.

Lemma extract_function_at_line_unknown_witness :
  declares Html.impl_pattern "fn far() {" = true
  ∧ Html.extract_function_at_line far_declaration 25 = "unknown"
  ∧ Json.extract_function_at_line
      (λ _, Json.Text far_declaration) "src/lib.rs" 35 = "unknown".
Proof.
  split; [vm_compute; reflexivity|]. split.
  - apply (proj1 extract_function_at_line_unknown far_declaration 25).
    apply window_by_check. vm_compute. reflexivity.
  - apply (proj2 extract_function_at_line_unknown
                 (λ _, Json.Text far_declaration) "src/lib.rs" 35).
    intros content i ln [= <-]. apply window_by_check.
    vm_compute. reflexivity.
Defined.

(** C9: with target line 1 the range walked is empty and both scripts
    answer "unknown" whatever the file holds, also when its first line
    is a function declaration; for every target line the index 0 is
    outside the range, so the first line of the file is never read. *)
Theorem extract_function_at_line_skips_first_line :
  (scan_range 20 1 = [] ∧ scan_range 30 1 = [])
  ∧ (∀ content, Html.extract_function_at_line content 1 = "unknown")
  ∧ (∀ d file_path, Json.extract_function_at_line d file_path 1 = "unknown")
  ∧ (declares Html.impl_pattern "fn main() {" = true
     ∧ declares Json.impl_pattern "fn main() {" = true
     ∧ Html.extract_function_at_line "fn main() {" 1 = "unknown"
     ∧ Json.extract_function_at_line
         (λ _, Json.Text "fn main() {") "src/main.rs" 1 = "unknown")
  ∧ (∀ window n, 0 ∉ scan_range window n)
  ∧ (∀ impl_re window n l0 l0' lines,
       scan_lines impl_re (l0 :: lines) (scan_range window n)
       = scan_lines impl_re (l0' :: lines) (scan_range window n)).
Proof.
  split; [split; reflexivity|]. split; [|split; [|split; [|split]]].
  - intros content. unfold Html.extract_function_at_line.
    by change (scan_range 20 1) with (@nil Z).
  - intros d file_path.
    unfold Json.extract_function_at_line, Json.try_body, Json.read_lines.
    change (scan_range 30 1) with (@nil Z).
    by destruct (d file_path).
  - split_and!; vm_compute; reflexivity.
  - intros window n Hi. apply elem_of_scan_range in Hi. lia.
  - intros. apply scan_lines_first_line, scan_range_positive.
Qed.

Lemma fold_append_constant (label : Z → string) (name : string)
    (lines acc : list Z) :
  (∀ n, label n = name) →
  fold_left (λ func_lines line_num,
               Json.append_to func_lines (label line_num) line_num)
    lines [(name, acc)]
  = [(name, acc ++ lines)].
Proof.
  intros Hl. revert acc. induction lines as [|n lines IH]; intros acc; simpl.
  - by rewrite app_nil_r.
  - rewrite Hl, String.eqb_refl, IH. by rewrite <-app_assoc.
Qed.

Lemma group_stat_answers fs file_path f lines :
  fs file_path = Json.Stat f →
  Json.group_uncovered_by_function_stat fs file_path lines
  = Py.Ok (Json.group_uncovered_by_function (λ _, f) file_path lines).
Proof.
  intros Hfs.
  unfold Json.group_uncovered_by_function_stat,
    Json.group_uncovered_by_function.
  generalize (Py.slice_to 50 lines) (@nil (string * list Z)).
  intros l. induction l as [|n l IH]; intros acc; [done|]. simpl.
  unfold Json.extract_function_at_line_stat at 2. rewrite Hfs. simpl.
  apply IH.
Qed.

Lemma fold_stat_raised fs file_path e lines :
  fold_left
    (λ acc line_num,
       func_lines ← acc;
       func_name ← Json.extract_function_at_line_stat fs file_path line_num;
       Py.Ok (Json.append_to func_lines func_name line_num))
    lines (Py.Raise e)
  = Py.Raise e.
Proof. induction lines as [|n lines IH]; [done|]. simpl. apply IH. Qed.

Lemma group_stat_fails fs file_path n lines :
  fs file_path = Json.StatFails →
  Json.group_uncovered_by_function_stat fs file_path (n :: lines)
  = Py.Raise Py.OSError.
Proof.
  intros Hfs. unfold Json.group_uncovered_by_function_stat, Py.slice_to.
  simpl. unfold Json.extract_function_at_line_stat at 2. rewrite Hfs. simpl.
  apply fold_stat_raised.
Qed.

(** The only exception of the grouping is the one of [exists()]. *)
Lemma group_stat_raises fs file_path lines e :
  Json.group_uncovered_by_function_stat fs file_path lines = Py.Raise e →
  e = Py.OSError.
Proof.
  destruct (fs file_path) as [|f] eqn:Hfs.
  - destruct lines as [|n lines]; [done|].
    rewrite group_stat_fails by done. congruence.
  - by rewrite (group_stat_answers _ _ f).
Qed.

Lemma print_summary_groups_raises fs shown e :
  Json.print_summary_groups fs shown = Py.Raise e → e = Py.OSError.
Proof.
  unfold Json.print_summary_groups, Py.traverse.
  induction shown as [|x shown IH]; [done|]. simpl.
  destruct ((0 <? Json.total_lines x) && (0 <? Json.uncovered_lines x)).
  - destruct (Json.group_uncovered_by_function_stat fs (Json.path x)
                (Json.uncovered_line_numbers x)) as [g|e'] eqn:Hg; simpl.
    + destruct (mapM _ shown) as [gs|e'']; simpl; [done|].
      intros [= <-]. by apply IH.
    + intros [= <-]. by apply group_stat_raises in Hg.
  - simpl. destruct (mapM _ shown) as [gs|e'']; simpl; [done|].
    intros [= <-]. by apply IH.
Qed.

(** C8: in the direct-JSON script a source file that [exists()] reports
    missing, or any exception raised in the [try] block, gives the label
    "unknown" for that line and nothing is raised: the grouping files the
    lines it processes under "unknown", and the loop of [print_summary]
    returns when [exists()] answers for every file.  The call of
    [exists()] itself stands before the [try]: when it raises [OSError]
    the function raises it, the grouping of the file raises it, and so
    does the loop of [print_summary] over any list of files that has this
    one with an uncovered line. *)
Theorem extract_function_at_line_stat_failure fs file_path :
  (∀ f n,
     fs file_path = Json.Stat f →
     f = Json.Missing
     ∨ (∃ e, Json.try_body (λ _, f) file_path n = Py.Raise e) →
     Json.extract_function_at_line_stat fs file_path n = Py.Ok "unknown")
  ∧ (∀ f n lines,
       fs file_path = Json.Stat f →
       (∀ content, f ≠ Json.Text content) →
       Json.group_uncovered_by_function_stat fs file_path (n :: lines)
       = Py.Ok [("unknown", Py.slice_to 50 (n :: lines))])
  ∧ (∀ shown,
       (∀ a, a ∈ shown → fs (Json.path a) ≠ Json.StatFails) →
       ∃ groups, Json.print_summary_groups fs shown = Py.Ok groups)
  ∧ (fs file_path = Json.StatFails →
     (∀ n, Json.extract_function_at_line_stat fs file_path n
           = Py.Raise Py.OSError)
     ∧ (∀ n lines,
          Json.group_uncovered_by_function_stat fs file_path (n :: lines)
          = Py.Raise Py.OSError)
     ∧ (∀ a shown,
          a ∈ shown →
          Json.path a = file_path →
          0 < Json.total_lines a →
          0 < Json.uncovered_lines a →
          Json.uncovered_line_numbers a ≠ [] →
          Json.print_summary_groups fs shown = Py.Raise Py.OSError)).
Proof.
  split; [|split; [|split]].
  - intros f n Hfs Hf. unfold Json.extract_function_at_line_stat.
    rewrite Hfs. f_equal. unfold Json.extract_function_at_line.
    destruct Hf as [->|[e He]]; [done|]. rewrite He. by destruct f.
  - intros f n lines Hfs Hf. rewrite (group_stat_answers _ _ f) by done.
    f_equal.
    assert (∀ m, Json.extract_function_at_line (λ _, f) file_path m
                 = "unknown") as Hu.
    { intros m.
      unfold Json.extract_function_at_line, Json.try_body, Json.read_lines.
      destruct f as [| |content]; [done..|]. by destruct (Hf content). }
    unfold Json.group_uncovered_by_function, Py.slice_to. simpl.
    rewrite Hu. by apply (fold_append_constant _ "unknown" _ [n]).
  - intros shown. unfold Json.print_summary_groups, Py.traverse.
    induction shown as [|x shown IH]; intros Hall; [by exists []|].
    destruct IH as [groups Hg].
    { intros a Ha. apply Hall. by right. }
    simpl. rewrite Hg.
    destruct ((0 <? Json.total_lines x) && (0 <? Json.uncovered_lines x));
      [|by eexists].
    destruct (fs (Json.path x)) as [|f] eqn:Hfs.
    + destruct (Hall x); [by left|done].
    + rewrite (group_stat_answers _ _ f) by done. by eexists.
  - intros Hfs. split_and!.
    + intros n. unfold Json.extract_function_at_line_stat. by rewrite Hfs.
    + intros n lines. by apply group_stat_fails.
    + intros a shown Ha Hp Ht Hu Hl.
      destruct (Json.print_summary_groups fs shown) as [gs|e] eqn:Hg.
      * exfalso. revert gs Hg.
        unfold Json.print_summary_groups, Py.traverse.
        induction shown as [|x shown IH]; intros gs; [by inversion Ha|].
        simpl. apply elem_of_cons in Ha as [<-|Ha].
        -- rewrite (proj2 (Z.ltb_lt _ _) Ht), (proj2 (Z.ltb_lt _ _) Hu).
           simpl. rewrite Hp.
           destruct (Json.uncovered_line_numbers a) as [|n lines]; [done|].
           by rewrite group_stat_fails.
        -- destruct (if _ : bool then _ else _) as [g|e]; simpl; [|done].
           destruct (mapM _ shown) as [gs'|e] eqn:Hm; simpl; [|done].
           intros _. by eapply IH.
      * by apply print_summary_groups_raises in Hg as ->.
Qed.

Lemma extract_function_at_line_stat_failure_witness :
  Json.extract_function_at_line_stat strict_names long_path 7
  = Py.Raise Py.OSError
  ∧ Json.group_uncovered_by_function_stat strict_names long_path [7; 8]
    = Py.Raise Py.OSError.
Proof.
  destruct (proj2 (proj2 (proj2 (extract_function_at_line_stat_failure
                                   strict_names long_path))))
    as (He & Hg & _).
  - vm_compute. reflexivity.
  - split; [apply He|apply Hg].
Defined.

End attribution_facts.

(** ** Grouping uncovered lines by label *)

Section grouping_facts.

Lemma find_step_invariant content done acc n :
  find_invariant (Html.extract_function_at_line content) done acc →
  find_invariant (Html.extract_function_at_line content) (done ++ [n])
    (Html.find_step content acc n).
Proof.
  destruct acc as [funcs seen]. intros (Hseen & Hnd & Hin & Hall).
  simpl in *. unfold Html.find_step. simpl.
  set (f := Html.extract_function_at_line content n).
  destruct (bool_decide (f ∉ seen)) eqn:Hfresh; simpl.
  - apply bool_decide_eq_true in Hfresh.
    destruct (String.eqb f "unknown") eqn:Hu; simpl.
    + apply String.eqb_eq in Hu. split_and!; simpl; [done..| |].
      * intros n' f' H'. destruct (Hin n' f' H') as (?&?&l1&l2&->&?).
        split_and!; [done..|]. exists l1, (l2 ++ [n]).
        by rewrite <-app_assoc.
      * intros m Hm Hmu. apply elem_of_app in Hm as [Hm|Hm]; [by apply Hall|].
        apply list_elem_of_singleton in Hm as ->. by fold f in Hmu.
    + apply String.eqb_neq in Hu. split_and!; simpl.
      * intros g. rewrite fmap_app, elem_of_app, elem_of_union, Hseen.
        simpl. by rewrite elem_of_singleton, list_elem_of_singleton.
      * rewrite fmap_app. apply NoDup_app. split_and!; [done| |].
        -- intros g Hg ->%list_elem_of_singleton.
           by apply Hfresh, Hseen.
        -- apply NoDup_singleton.
      * intros n' f' H'. apply elem_of_app in H' as [H'|H'].
        -- destruct (Hin n' f' H') as (?&?&l1&l2&->&?).
           split_and!; [done..|]. exists l1, (l2 ++ [n]).
           by rewrite <-app_assoc.
        -- apply list_elem_of_singleton in H' as [= -> ->].
           split_and!; [done..|]. exists done, []. split; [done|].
           intros m Hm Hmf. apply Hfresh, Hseen. rewrite <-Hmf.
           apply Hall; [done|]. by rewrite Hmf.
      * intros m Hm Hmu. rewrite fmap_app, elem_of_app.
        apply elem_of_app in Hm as [Hm|Hm]; [left; by apply Hall|].
        apply list_elem_of_singleton in Hm as ->. right.
        by apply list_elem_of_singleton.
  - apply bool_decide_eq_false in Hfresh.
    assert (f ∈ seen) as Hf by (by apply dec_stable).
    split_and!; simpl; [done..| |].
    + intros n' f' H'. destruct (Hin n' f' H') as (?&?&l1&l2&->&?).
      split_and!; [done..|]. exists l1, (l2 ++ [n]).
      by rewrite <-app_assoc.
    + intros m Hm Hmu. apply elem_of_app in Hm as [Hm|Hm]; [by apply Hall|].
      apply list_elem_of_singleton in Hm as ->. by apply Hseen.
Qed.

Lemma find_fold_invariant content lines done acc :
  find_invariant (Html.extract_function_at_line content) done acc →
  find_invariant (Html.extract_function_at_line content) (done ++ lines)
    (fold_left (Html.find_step content) lines acc).
Proof.
  revert done acc. induction lines as [|n lines IH]; intros done acc H.
  - by rewrite app_nil_r.
  - simpl. rewrite (cons_middle n done lines), app_assoc.
    by apply IH, find_step_invariant.
Qed.

Lemma lookup_append_to name func_lines func_name line_num :
  lookup_label name (Json.append_to func_lines func_name line_num)
  = if String.eqb func_name name
    then Some (default [] (lookup_label func_name func_lines) ++ [line_num])
    else lookup_label name func_lines.
Proof.
  induction func_lines as [|[k v] more IH]; simpl.
  - done.
  - destruct (String.eqb k func_name) eqn:Hk; simpl.
    + apply String.eqb_eq in Hk as ->.
      by destruct (String.eqb func_name name).
    + rewrite IH. destruct (String.eqb func_name name) eqn:Hn.
      * apply String.eqb_eq in Hn as <-. by rewrite Hk.
      * done.
Qed.

Lemma entry_default lines : default [] (entry lines) = lines.
Proof. by destruct lines. Qed.

Lemma entry_snoc lines n : entry (lines ++ [n]) = Some (lines ++ [n]).
Proof. by destruct lines. Qed.

Lemma group_fold_lookup (label : Z → string) lines done func_lines :
  (∀ name, lookup_label name func_lines
           = entry (filter (λ n, label n = name) done)) →
  ∀ name,
    lookup_label name
      (fold_left (λ fl n, Json.append_to fl (label n) n) lines func_lines)
    = entry (filter (λ n, label n = name) (done ++ lines)).
Proof.
  revert done func_lines.
  induction lines as [|n lines IH]; intros done func_lines H name; simpl.
  - by rewrite app_nil_r.
  - rewrite (cons_middle n done lines), app_assoc.
    apply IH. clear name. intros name.
    rewrite lookup_append_to, filter_app, H, entry_default.
    destruct (String.eqb (label n) name) eqn:Hn.
    + apply String.eqb_eq in Hn.
      rewrite (filter_cons_True _ n []) by done.
      rewrite filter_nil, Hn. by rewrite entry_snoc.
    + apply String.eqb_neq in Hn.
      rewrite (filter_cons_False _ n []) by done.
      by rewrite filter_nil, app_nil_r.
Qed.

(** C10, as stated, fails in its last part: of 51 uncovered lines of a
    file that cannot be read, every one has the label "unknown", but the
    direct-JSON script files only the first 50 under that key. *)
Lemma group_uncovered_by_function_limit_counterexample :
  let d : Json.disk := λ _, Json.Missing in
  let lines := seqZ 1 51 in
  Forall (λ n, Json.extract_function_at_line d "src/lib.rs" n = "unknown")
    lines
  ∧ 51 ∈ lines
  ∧ ∃ grouped,
      lookup_label "unknown"
        (Json.group_uncovered_by_function d "src/lib.rs" lines)
      = Some grouped
      ∧ 51 ∉ grouped.
Proof.
  split_and!.
  - apply Forall_forall. intros n _. reflexivity.
  - apply (bool_decide_unpack _). vm_compute. reflexivity.
  - exists (seqZ 1 50). split; [vm_compute; reflexivity|].
    apply (bool_decide_unpack _). vm_compute. reflexivity.
Qed.

(** C10, amended: in the HTML script [find_uncovered_functions] returns
    each label at most once, paired with the first uncovered line
    attributed to it, and never the label "unknown", so that the lines
    whose attribution fails are left out; the direct-JSON script files
    them under the key "unknown", as it files every label, with all
    their line numbers among the first 50 uncovered lines. *)
Theorem find_uncovered_functions_labels :
  (∀ fa : Html.analysis,
     let label := Html.extract_function_at_line (Html.content fa) in
     let found := Html.find_uncovered_functions fa in
     NoDup found.*2
     ∧ (∀ n f, (n, f) ∈ found →
               f ≠ "unknown" ∧ label n = f
               ∧ ∃ l1 l2, Html.uncovered_line_numbers fa = l1 ++ n :: l2
                          ∧ ∀ m, m ∈ l1 → label m ≠ f)
     ∧ (∀ m, m ∈ Html.uncovered_line_numbers fa →
             label m ≠ "unknown" → label m ∈ found.*2)
     ∧ (∀ m f, label m = "unknown" → (m, f) ∉ found))
  ∧ (∀ (d : Json.disk) file_path uncovered_lines name,
       lookup_label name
         (Json.group_uncovered_by_function d file_path uncovered_lines)
       = entry (filter
                  (λ n, Json.extract_function_at_line d file_path n = name)
                  (Py.slice_to 50 uncovered_lines))).
Proof.
  split.
  - intros fa label found.
    pose proof (find_fold_invariant (Html.content fa)
                  (Html.uncovered_line_numbers fa) [] ([], ∅)) as H.
    simpl in H. fold label in H.
    destruct H as (_ & Hnd & Hin & Hall).
    { split_and!; simpl; [set_solver|constructor|set_solver..]. }
    split_and!; [done..|].
    intros m f Hm Hmf. destruct (Hin m f Hmf) as (Hf & Hl & _).
    apply Hf. by rewrite <-Hl.
  - intros d file_path uncovered_lines name.
    unfold Json.group_uncovered_by_function.
    by apply (group_fold_lookup _ _ []).
Qed.

End grouping_facts.

(** ** Per-file counts and percentages *)

Section coverage_facts.

Lemma sum_ones {A} (l : list A) : Py.sum ((λ _, 1) <$> l) = Py.len l.
Proof.
  unfold Py.sum, Py.len. induction l as [|a l IH]; [done|].
  rewrite fmap_cons. cbn [foldr length]. rewrite IH. lia.
Qed.

Lemma covered_bounds {A} (P : A → Prop) `{∀ a, Decision (P a)} (l : list A) :
  0 ≤ Py.sum ((λ _, 1) <$> filter P l) ≤ Py.len l.
Proof.
  rewrite sum_ones. unfold Py.len.
  pose proof (length_filter P l). lia.
Qed.

(** The guarded division never divides by zero. *)
Lemma percentage_ok covered total :
  ∃ q, percentage covered total = Py.Ok q
       ∧ (total ≤ 0 → q = 0%Q)
       ∧ (0 < total → q = (inject_Z covered / inject_Z total * 100)%Q).
Proof.
  unfold percentage, Py.truediv.
  destruct (0 <? total) eqn:Ht.
  - apply Z.ltb_lt in Ht. destruct (total =? 0) eqn:E; [lia|].
    simpl. eexists. split_and!; [done|lia|done].
  - apply Z.ltb_ge in Ht. eexists. split_and!; [done|done|lia].
Qed.

Lemma json_analyze_ok file_path traces :
  ∃ q, Json.analyze_file_coverage file_path traces
       = Py.Ok (Json.Analysis file_path (Py.len traces)
                  (Py.sum ((λ _, 1) <$> filter (λ t, 0 < Json.hits t) traces))
                  (Py.len traces
                   - Py.sum ((λ _, 1)
                               <$> filter (λ t, 0 < Json.hits t) traces))
                  q
                  (line <$> filter (λ t, Json.hits t = 0) traces))
       ∧ percentage
           (Py.sum ((λ _, 1) <$> filter (λ t, 0 < Json.hits t) traces))
           (Py.len traces) = Py.Ok q.
Proof.
  unfold Json.analyze_file_coverage.
  destruct (percentage_ok
              (Py.sum ((λ _, 1) <$> filter (λ t, 0 < Json.hits t) traces))
              (Py.len traces)) as (q & -> & _).
  by exists q.
Qed.

(** Reading the hit counts succeeds on traces that carry them, and only
    a missing key can make it fail. *)
Lemma html_counted_ok traces :
  Forall carries_hits traces →
  ∃ counted,
    Py.traverse (λ t, h ← Html.hits t; Py.Ok (t, h)) traces = Py.Ok counted
    ∧ length counted = length traces.
Proof.
  unfold Py.traverse.
  induction 1 as [|t traces (h & Hh & _) _ (counted & IH & Hlen)]; simpl.
  - by exists [].
  - assert (Html.hits t = Py.Ok h) as ->
      by (unfold Html.hits; by rewrite Hh).
    simpl. rewrite IH. simpl.
    exists ((t, h) :: counted). by rewrite <-Hlen.
Qed.

Lemma html_counted_raise traces e :
  Py.traverse (λ t, h ← Html.hits t; Py.Ok (t, h)) traces = Py.Raise e →
  e = Py.KeyError.
Proof.
  unfold Py.traverse. induction traces as [|t traces IH]; simpl; [done|].
  destruct (Html.hits t) as [h|e'] eqn:Hh; simpl.
  - destruct (mapM _ traces); simpl; [done|]. intros [= <-]. by apply IH.
  - intros [= <-]. unfold Html.hits in Hh.
    by destruct (stats t) as [[h|]|]; simplify_eq.
Qed.

Lemma traverse_length {A B} (f : A → Py.result B) l k :
  Py.traverse f l = Py.Ok k → length k = length l.
Proof.
  unfold Py.traverse. revert k. induction l as [|a l IH]; intros k; simpl.
  - by intros [= <-].
  - destruct (f a); simpl; [|done].
    destruct (mapM f l) as [k'|]; simpl; [|done].
    intros [= <-]. simpl. by rewrite (IH k').
Qed.

(** What [analyze_file_coverage] of the HTML script returns once every
    hit count was read. *)
Lemma html_analyze_ok fd counted :
  Py.traverse (λ t, h ← Html.hits t; Py.Ok (t, h)) (default [] (Html.fd_traces fd))
  = Py.Ok counted →
  ∃ a, Html.analyze_file_coverage fd = Py.Ok a
       ∧ Html.total_lines a = Py.len (default [] (Html.fd_traces fd))
       ∧ 0 ≤ Html.covered_lines a ≤ Html.total_lines a
       ∧ Html.uncovered_lines a = Html.total_lines a - Html.covered_lines a
       ∧ (Html.total_lines a ≤ 0 → Html.coverage_percent a = 0%Q).
Proof.
  intros Hc. unfold Html.analyze_file_coverage. rewrite Hc. simpl.
  set (covered := Py.sum ((λ _, 1) <$> filter (λ th, 0 < th.2) counted)).
  set (total := Py.len (default [] (Html.fd_traces fd))).
  destruct (percentage_ok covered total) as (q & -> & Hq0 & _). simpl.
  eexists. split; [done|]. simpl. split_and!; [done| | |done..].
  - apply (covered_bounds (λ th : trace * Z, 0 < th.2)).
  - pose proof (covered_bounds (λ th : trace * Z, 0 < th.2) counted) as H.
    apply traverse_length in Hc. subst covered total.
    unfold Py.len in *. lia.
Qed.

(** C6: on traces that carry non-negative hit counts both scripts return
    counts, and when the total T is at least 1 the covered count C and
    the uncovered count U satisfy C + U = T, 0 <= C <= T and
    0 <= U <= T. *)
Theorem analyze_file_coverage_counts :
  (∀ file_path traces,
     Forall carries_hits traces →
     ∃ a, Json.analyze_file_coverage file_path traces = Py.Ok a
          ∧ Json.total_lines a = Py.len traces
          ∧ (1 ≤ Json.total_lines a →
             Json.covered_lines a + Json.uncovered_lines a
             = Json.total_lines a
             ∧ 0 ≤ Json.covered_lines a ≤ Json.total_lines a
             ∧ 0 ≤ Json.uncovered_lines a ≤ Json.total_lines a))
  ∧ (∀ fd,
       Forall carries_hits (default [] (Html.fd_traces fd)) →
       ∃ a, Html.analyze_file_coverage fd = Py.Ok a
            ∧ Html.total_lines a = Py.len (default [] (Html.fd_traces fd))
            ∧ (1 ≤ Html.total_lines a →
               Html.covered_lines a + Html.uncovered_lines a
               = Html.total_lines a
               ∧ 0 ≤ Html.covered_lines a ≤ Html.total_lines a
               ∧ 0 ≤ Html.uncovered_lines a ≤ Html.total_lines a)).
Proof.
  split.
  - intros file_path traces _.
    destruct (json_analyze_ok file_path traces) as (q & -> & _).
    eexists. split; [done|]. simpl. split; [done|]. intros _.
    pose proof (covered_bounds (λ t, 0 < Json.hits t) traces). lia.
  - intros fd Hh. destruct (html_counted_ok _ Hh) as (counted & Hc & _).
    destruct (html_analyze_ok fd counted Hc) as (a & -> & Ht & Hb & Hu & _).
    exists a. split_and!; [done..|]. intros _. lia.
Qed.

Lemma analyze_file_coverage_counts_witness :
  let traces := [Trace 10 (Some (Some 3)); Trace 11 (Some (Some 0))] in
  Forall carries_hits traces
  ∧ ∃ a, Json.analyze_file_coverage "src/lib.rs" traces = Py.Ok a
         ∧ Json.total_lines a = 2.
Proof.
  intros traces.
  assert (Forall carries_hits traces) as Hh.
  { repeat constructor; eexists; (split; [reflexivity|lia]). }
  split; [exact Hh|].
  destruct (proj1 analyze_file_coverage_counts "src/lib.rs" traces Hh)
    as (a & Ha & Ht & _).
  exists a. split; [exact Ha|exact Ht].
Defined.

(** C7: for an empty trace list both scripts return the percentage 0
    without dividing, and on no input does [analyze_file_coverage] end
    in a division by zero. *)
Theorem analyze_file_coverage_empty :
  (∀ file_path,
     ∃ a, Json.analyze_file_coverage file_path [] = Py.Ok a
          ∧ Json.total_lines a = 0 ∧ Json.coverage_percent a = 0%Q)
  ∧ (∀ path content,
       (∃ a, Html.analyze_file_coverage (Html.FileData path content (Some []))
             = Py.Ok a
             ∧ Html.total_lines a = 0 ∧ Html.coverage_percent a = 0%Q)
       ∧ (∃ a, Html.analyze_file_coverage (Html.FileData path content None)
               = Py.Ok a
               ∧ Html.total_lines a = 0 ∧ Html.coverage_percent a = 0%Q))
  ∧ (∀ covered, percentage covered 0 = Py.Ok 0%Q)
  ∧ (∀ file_path traces,
       Json.analyze_file_coverage file_path traces
       ≠ Py.Raise Py.ZeroDivisionError)
  ∧ (∀ fd, Html.analyze_file_coverage fd ≠ Py.Raise Py.ZeroDivisionError).
Proof.
  split_and!.
  - intros file_path. eexists. split_and!; reflexivity.
  - intros path content. split; eexists; split_and!; reflexivity.
  - reflexivity.
  - intros file_path traces.
    by destruct (json_analyze_ok file_path traces) as (q & -> & _).
  - intros fd.
    destruct (Py.traverse (λ t, h ← Html.hits t; Py.Ok (t, h))
                (default [] (Html.fd_traces fd))) as [counted|e] eqn:Hc.
    + by destruct (html_analyze_ok fd counted Hc) as (a & -> & _).
    + unfold Html.analyze_file_coverage. rewrite Hc. simpl.
      apply html_counted_raise in Hc as ->. done.
Qed.

Lemma percentage_positive covered total :
  0 < total →
  percentage covered total
  = Py.Ok (inject_Z covered / inject_Z total * 100)%Q.
Proof.
  intros Ht. by destruct (percentage_ok covered total) as (q & -> & _ & ->).
Qed.

(** Every file the direct-JSON script analyzes has at least one trace. *)
Lemma json_all_analyses_total report analyses :
  Json.all_analyses report = Py.Ok analyses →
  Forall (λ a, 1 ≤ Json.total_lines a) analyses.
Proof.
  revert analyses.
  induction report as [|[file_path file_traces] report IH]; intros analyses.
  - intros [= <-]. constructor.
  - simpl.
    destruct (Py.endswith file_path ".rs"
              && negb (Py.len file_traces =? 0)) eqn:Hkeep; [|by apply IH].
    apply andb_true_iff in Hkeep as [_ Hlen].
    apply negb_true_iff, Z.eqb_neq in Hlen.
    destruct (json_analyze_ok file_path file_traces) as (q & -> & _). simpl.
    destruct (Json.all_analyses report) as [rest|]; simpl; [|done].
    intros [= <-]. constructor; [|by apply IH].
    simpl. unfold Py.len in *. lia.
Qed.

Lemma sum_total_positive (totals : list Z) :
  Forall (λ t, 1 ≤ t) totals → totals ≠ [] → 0 < Py.sum totals.
Proof.
  unfold Py.sum. intros H. induction H as [|t totals Ht H IH]; [done|].
  intros _. simpl. destruct totals as [|t' totals]; simpl in *; [lia|].
  assert (0 < t' + foldr Z.add 0 totals) by (by apply IH). lia.
Qed.

(** C5: the overall percentage both scripts print is the sum of the
    covered lines of the analyzed files, divided by the sum of their total
    lines, times 100; on files of unequal size it differs from the mean of
    the per-file percentages (25 against 50 in the example). *)
Theorem overall_coverage_aggregate :
  (∀ report analyses,
     Json.all_analyses report = Py.Ok analyses → analyses ≠ [] →
     0 < Py.sum (Json.total_lines <$> analyses)
     ∧ Json.overall_coverage analyses
       = Some (Py.Ok (inject_Z (Py.sum (Json.covered_lines <$> analyses))
                      / inject_Z (Py.sum (Json.total_lines <$> analyses))
                      * 100)%Q))
  ∧ (∀ all_analyses,
       0 < Py.sum (Html.total_lines <$> all_analyses) →
       Html.overall_coverage all_analyses
       = Py.Ok (inject_Z (Py.sum (Html.covered_lines <$> all_analyses))
                / inject_Z (Py.sum (Html.total_lines <$> all_analyses))
                * 100)%Q)
  ∧ (∃ analyses q,
       Json.all_analyses sample_report = Py.Ok analyses
       ∧ Json.overall_coverage analyses = Some (Py.Ok q)
       ∧ (q == 25)%Q
       ∧ (mean (Json.coverage_percent <$> analyses) == 50)%Q
       ∧ ¬ (q == mean (Json.coverage_percent <$> analyses))%Q)
  ∧ (∃ all_analyses q,
       Py.traverse Html.analyze_file_coverage sample_files = Py.Ok all_analyses
       ∧ Html.overall_coverage all_analyses = Py.Ok q
       ∧ (q == 25)%Q
       ∧ (mean (Html.coverage_percent <$> all_analyses) == 50)%Q
       ∧ ¬ (q == mean (Html.coverage_percent <$> all_analyses))%Q).
Proof.
  split_and!.
  - intros report analyses Hr Hne.
    assert (0 < Py.sum (Json.total_lines <$> analyses)) as Hpos.
    { apply sum_total_positive.
      - apply Forall_fmap. by apply json_all_analyses_total in Hr.
      - by destruct analyses. }
    split; [done|]. unfold Json.overall_coverage.
    destruct analyses as [|a analyses]; [done|].
    by rewrite percentage_positive.
  - intros all_analyses Hpos. unfold Html.overall_coverage.
    by rewrite percentage_positive.
  - eexists _, _. split_and!; [vm_compute; reflexivity..|].
    intros H. vm_compute in H. discriminate.
  - eexists _, _. split_and!; [vm_compute; reflexivity..|].
    intros H. vm_compute in H. discriminate.
Qed.

Lemma overall_coverage_aggregate_witness :
  ∃ analyses,
    Json.all_analyses sample_report = Py.Ok analyses
    ∧ analyses ≠ []
    ∧ 0 < Py.sum (Json.total_lines <$> analyses).
Proof.
  assert (∃ analyses, Json.all_analyses sample_report = Py.Ok analyses
                      ∧ analyses ≠ []) as (analyses & Hr & Hne).
  { eexists. split; [vm_compute; reflexivity|discriminate]. }
  exists analyses. split; [exact Hr|]. split; [exact Hne|].
  exact (proj1 (proj1 overall_coverage_aggregate
                  sample_report analyses Hr Hne)).
Defined.

End coverage_facts.

(** ** More on the range summarizer *)

Section range_pair_facts.
Import Ranges.

Lemma pair_step_render s t line :
  ranges t = (λ p, render p.1 p.2) <$> pairs s →
  start t = run_start s → end_ t = run_end s →
  ranges (step t line) = (λ p, render p.1 p.2) <$> pairs (pair_step s line)
  ∧ start (step t line) = run_start (pair_step s line)
  ∧ end_ (step t line) = run_end (pair_step s line).
Proof.
  intros Hr Hs He. unfold step, pair_step. rewrite He.
  destruct (line =? run_end s + 1); simpl; [done|].
  by rewrite fmap_app, Hr, Hs.
Qed.

Lemma pair_fold_render rest s t :
  ranges t = (λ p, render p.1 p.2) <$> pairs s →
  start t = run_start s → end_ t = run_end s →
  ranges (fold_left step rest t)
  = (λ p, render p.1 p.2) <$> pairs (fold_left pair_step rest s)
  ∧ start (fold_left step rest t) = run_start (fold_left pair_step rest s)
  ∧ end_ (fold_left step rest t) = run_end (fold_left pair_step rest s).
Proof.
  revert s t. induction rest as [|line rest IH]; intros s t Hr Hs He; [done|].
  simpl. destruct (pair_step_render s t line Hr Hs He) as (?&?&?).
  by apply IH.
Qed.

(** The texts of [summarize_line_ranges] are the pairs, rendered. *)
Lemma line_ranges_pairs lines :
  line_ranges lines = (λ p, render p.1 p.2) <$> range_pairs lines.
Proof.
  unfold line_ranges, range_pairs, run.
  destruct (Py.sorted lines) as [|first rest]; [done|].
  destruct (pair_fold_render rest (PairState [] first first)
              (St [] first first)) as (Hr & Hs & He); [done..|].
  rewrite fmap_app. simpl. by rewrite Hr, Hs, He.
Qed.

Lemma bounds_snoc l a b : bounds (l ++ [(a, b)]) = bounds l ++ [a; b].
Proof. unfold bounds. by rewrite bind_app. Qed.

Lemma pair_step_invariant done s line :
  pair_invariant done s → run_end s ≤ line →
  pair_invariant (done ++ [line]) (pair_step s line).
Proof.
  intros (Hin & Hle & Hsorted & Hbound) Hline. unfold pair_step.
  destruct (line =? run_end s + 1) eqn:E; unfold pair_invariant; simpl.
  - apply Z.eqb_eq in E. split_and!; [|lia|done..].
    intros x. rewrite elem_of_app, list_elem_of_singleton, Hin.
    split.
    + intros [[Hx|Hx]| ->]; [by left|right; lia|right; lia].
    + intros [Hx|Hx]; [left; by left|].
      destruct (decide (x = line)) as [->|]; [by right|].
      left. right. lia.
  - apply Z.eqb_neq in E. split_and!; [|lia| |].
    + intros x. rewrite elem_of_app, list_elem_of_singleton, Hin.
      split.
      * intros [[(a & b & Hab & Hx)|Hx]| ->].
        -- left. exists a, b. split; [|done]. apply elem_of_app. by left.
        -- left. exists (run_start s), (run_end s). split; [|done].
           apply elem_of_app. right. by apply list_elem_of_singleton.
        -- right. lia.
      * intros [(a & b & Hab & Hx)|Hx].
        -- apply elem_of_app in Hab as [Hab|Hab].
           ++ left. left. eauto.
           ++ apply list_elem_of_singleton in Hab as [= -> ->].
              left. by right.
        -- right. lia.
    + rewrite bounds_snoc. apply StronglySorted_app_2; [|done|].
      * intros x y Hx Hy. apply Hbound in Hx.
        rewrite !elem_of_cons in Hy.
        destruct Hy as [->|[->|Hy]]; [lia..|by apply elem_of_nil in Hy].
      * repeat constructor. done.
    + intros x. rewrite bounds_snoc, elem_of_app, !elem_of_cons.
      intros [Hx|[->|[->|Hx]]]; [apply Hbound in Hx; lia|lia..|].
      by apply elem_of_nil in Hx.
Qed.

Lemma pair_fold_invariant rest done s :
  pair_invariant done s → StronglySorted Z.le (run_end s :: rest) →
  pair_invariant (done ++ rest) (fold_left pair_step rest s).
Proof.
  revert done s. induction rest as [|line rest IH]; intros done s Hinv Hs.
  - by rewrite app_nil_r.
  - simpl. rewrite (cons_middle line done rest), app_assoc.
    apply StronglySorted_cons in Hs as [Hall Hs].
    apply IH.
    + apply pair_step_invariant; [done|]. by apply Forall_cons in Hall as [? _].
    + assert (run_end (pair_step s line) = line) as ->; [|done].
      unfold pair_step. by destruct (line =? run_end s + 1).
Qed.

(** X1: the ranges of [summarize_line_ranges], before they are rendered
    and truncated, denote exactly the input: an integer lies in one of
    them if and only if it is an input line; their bounds are written in
    ascending order. *)
Theorem range_pairs_denote (lines : list Z) :
  line_ranges lines = (λ p, render p.1 p.2) <$> range_pairs lines
  ∧ (∀ x, x ∈ lines ↔ ∃ a b, (a, b) ∈ range_pairs lines ∧ a ≤ x ≤ b)
  ∧ (∀ a b, (a, b) ∈ range_pairs lines → a ≤ b ∧ a ∈ lines ∧ b ∈ lines)
  ∧ StronglySorted Z.le (bounds (range_pairs lines)).
Proof.
  split; [apply line_ranges_pairs|].
  assert (∀ x, x ∈ lines ↔ x ∈ Py.sorted lines) as Hperm.
  { intros x. by rewrite sorted_Permutation. }
  pose proof (sorted_Sorted lines) as Hsorted.
  unfold range_pairs.
  destruct (Py.sorted lines) as [|first rest] eqn:Hs.
  { split_and!.
    - intros x. rewrite Hperm. split; [by intros ?%elem_of_nil|].
      by intros (a & b & ?%elem_of_nil & _).
    - by intros a b ?%elem_of_nil.
    - constructor. }
  destruct (pair_fold_invariant rest [first] (PairState [] first first))
    as (Hin & Hle & Hss & Hbound).
  { split_and!; simpl; [|lia|constructor|by intros x ?%elem_of_nil].
    intros x. rewrite list_elem_of_singleton. split; [intros ->; right; lia|].
    intros [(a & b & ?%elem_of_nil & _)|?]; [done|lia]. }
  { done. }
  simpl in Hin. set (s := fold_left pair_step rest _) in *.
  assert (∀ x, x ∈ lines ↔
               ∃ a b, (a, b) ∈ pairs s ++ [(run_start s, run_end s)]
                      ∧ a ≤ x ≤ b) as Hden.
  { intros x. rewrite Hperm, (Hin x). split.
    - intros [(a & b & Hab & Hx)|Hx].
      + exists a, b. split; [|done]. apply elem_of_app. by left.
      + exists (run_start s), (run_end s). split; [|done].
        apply elem_of_app. right. by apply list_elem_of_singleton.
    - intros (a & b & Hab & Hx). apply elem_of_app in Hab as [Hab|Hab].
      + left. eauto.
      + apply list_elem_of_singleton in Hab as [= -> ->]. by right. }
  split_and!; [done| |].
  - intros a b Hab.
    assert (a ≤ b) as Hab'.
    { apply elem_of_app in Hab as [Hab|Hab].
      - clear -Hss Hab. induction (pairs s) as [|[c d] l IH].
        + by apply elem_of_nil in Hab.
        + unfold bounds in Hss. simpl in Hss.
          apply StronglySorted_cons in Hss as [Hc Hss].
          apply elem_of_cons in Hab as [[= -> ->]|Hab].
          * by apply Forall_cons in Hc as [? _].
          * apply IH; [|done]. by apply StronglySorted_cons in Hss as [_ ?].
      - by apply list_elem_of_singleton in Hab as [= -> ->]. }
    split; [done|]. split; apply Hden; exists a, b; (split; [done|lia]).
  - rewrite bounds_snoc. apply StronglySorted_app_2; [|done|].
    + intros x y Hx Hy. apply Hbound in Hx. rewrite !elem_of_cons in Hy.
      destruct Hy as [->|[->|Hy]]; [lia..|by apply elem_of_nil in Hy].
    + repeat constructor. done.
Qed.

Lemma sorted_seqZ a (k : nat) : StronglySorted Z.le (seqZ a (Z.of_nat k)).
Proof.
  revert a. induction k as [|k IH]; intros a; [constructor|].
  rewrite seqZ_cons by lia.
  replace (Z.pred (Z.of_nat (S k))) with (Z.of_nat k) by lia.
  constructor; [apply IH|].
  apply Forall_forall. intros x Hx. apply elem_of_seqZ in Hx. lia.
Qed.

Lemma fold_step_consecutive (k : nat) s :
  fold_left step (seqZ (end_ s + 1) (Z.of_nat k)) s
  = St (ranges s) (start s) (end_ s + Z.of_nat k).
Proof.
  revert s. induction k as [|k IH]; intros s.
  - simpl. destruct s. simpl. f_equal. lia.
  - rewrite seqZ_cons by lia.
    replace (Z.pred (Z.of_nat (S k))) with (Z.of_nat k) by lia.
    simpl. unfold step at 2. rewrite Z.eqb_refl.
    rewrite <-Z.add_1_r.
    pose proof (IH (St (ranges s) (start s) (end_ s + 1))) as H.
    simpl in H. rewrite H. f_equal. lia.
Qed.

Lemma string_app_nil_r (s : string) : s +:+ "" = s.
Proof.
  induction s as [|c s IH]; [done|].
  change (String c (s +:+ "") = String c s). by rewrite IH.
Qed.

(** X2: a list that holds each of the integers a, a + 1, ..., b once, in
    any order, is summarized as the single range "a-b", or "a" when
    a = b. *)
Theorem summarize_line_ranges_consecutive (l : list Z) (a n : Z) :
  0 < n → l ≡ₚ seqZ a n →
  summarize_line_ranges l = render a (a + n - 1).
Proof.
  intros Hn Hp.
  assert (Py.sorted l = seqZ a n) as Hs.
  { apply sorted_unique; [|by symmetry].
    rewrite <-(Z2Nat.id n) by lia. apply sorted_seqZ. }
  assert (line_ranges l = [render a (a + n - 1)]) as Hr.
  { unfold line_ranges, run. rewrite Hs, seqZ_cons by lia.
    replace (Z.succ a) with (end_ (St [] a a) + 1) by (simpl; lia).
    replace (Z.pred n) with (Z.of_nat (Z.to_nat (n - 1))) by lia.
    rewrite fold_step_consecutive. simpl.
    do 2 f_equal. lia. }
  unfold summarize_line_ranges. rewrite Hr.
  destruct l as [|x l].
  - apply Permutation_nil_l in Hp. rewrite seqZ_cons in Hp by lia. done.
  - simpl. apply string_app_nil_r.
Qed.

Lemma summarize_line_ranges_consecutive_witness :
  summarize_line_ranges [12; 10; 11] = "10-12".
Proof.
  apply (summarize_line_ranges_consecutive [12; 10; 11] 10 3); [lia|].
  apply (bool_decide_unpack _). vm_compute. reflexivity.
Defined.

Lemma pretty_N_go_nonempty x s : s ≠ "" → pretty_N_go x s ≠ "".
Proof.
  revert s. induction (N.lt_wf_0 x) as [x _ IH]; intros s Hs.
  assert (x = 0 ∨ 0 < x)%N as [->|Hx] by lia.
  - by rewrite pretty_N_go_0.
  - rewrite pretty_N_go_step by done. apply IH; [by apply N.div_lt|done].
Qed.

Lemma str_nonempty n : Py.str n ≠ "".
Proof.
  unfold Py.str, pretty, pretty_Z. destruct n as [|x|x]; [done| |done].
  unfold pretty, pretty_positive, pretty, pretty_N.
  case_decide; [done|].
  rewrite pretty_N_go_step by lia. by apply pretty_N_go_nonempty.
Qed.

Lemma render_nonempty a b : render a b ≠ "".
Proof.
  unfold render. pose proof (str_nonempty a) as Ha.
  destruct (a =? b); [done|]. by destruct (Py.str a).
Qed.

Lemma join_nonempty sep x l : x ≠ "" → Py.join sep (x :: l) ≠ "".
Proof. intros Hx. simpl. destruct l; [done|]. by destruct x. Qed.

Lemma string_app_eq_nil (s t : string) : s +:+ t = "" → s = "".
Proof.
  destruct s as [|c s]; [done|].
  change (String c s +:+ t) with (String c (s +:+ t)). done.
Qed.

(** X3: the summary is the empty string for the empty list only. *)
Theorem summarize_line_ranges_empty_iff (lines : list Z) :
  summarize_line_ranges lines = "" ↔ lines = [].
Proof.
  split; [|by intros ->].
  destruct lines as [|x lines]; [done|]. intros H. exfalso.
  unfold summarize_line_ranges in H.
  pose proof (line_ranges_length (x :: lines)) as Hlen.
  pose proof (line_ranges_pairs (x :: lines)) as Hpairs.
  destruct (Py.sorted (x :: lines)) as [|y more] eqn:Hs.
  { pose proof (sorted_Permutation (x :: lines)) as Hp. rewrite Hs in Hp.
    by apply Permutation_nil_l in Hp. }
  rewrite Hpairs in H, Hlen.
  destruct (range_pairs (x :: lines)) as [|[a b] ps]; [done|].
  rewrite fmap_cons in H. unfold Py.slice_to in H.
  change (take 3 (?r :: ?rs)) with (r :: take 2 rs) in H.
  apply string_app_eq_nil in H.
  revert H. apply join_nonempty, render_nonempty.
Qed.

End range_pair_facts.

(** ** More on the attribution heuristic *)

Section scan_facts.

Lemma range_down_nil start stop : start ≤ stop → Py.range_down start stop = [].
Proof.
  intros H. unfold Py.range_down.
  by replace (Z.to_nat (start - stop)) with 0%nat by lia.
Qed.

Lemma range_down_cons start stop :
  stop < start →
  Py.range_down start stop = start :: Py.range_down (start - 1) stop.
Proof.
  intros H. unfold Py.range_down.
  replace (Z.to_nat (start - stop)) with (S (Z.to_nat (start - 1 - stop)))
    by lia.
  rewrite <-cons_seq, fmap_cons, <-fmap_S_seq, <-list_fmap_compose.
  f_equal; [simpl; lia|].
  apply list_fmap_ext. intros _ k _. simpl. lia.
Qed.

Lemma range_down_app start mid stop :
  stop ≤ mid ≤ start →
  Py.range_down start stop
  = Py.range_down start mid ++ Py.range_down mid stop.
Proof.
  intros H.
  remember (Z.to_nat (start - mid)) as k eqn:Hk.
  revert start H Hk. induction k as [|k IH]; intros start H Hk.
  - assert (start = mid) as -> by lia. by rewrite (range_down_nil mid mid).
  - rewrite (range_down_cons start stop), (range_down_cons start mid) by lia.
    simpl. f_equal. apply IH; lia.
Qed.

Lemma scan_lines_app impl_re lines idxs more :
  scan_lines impl_re lines (idxs ++ more)
  = match scan_lines impl_re lines idxs with
    | Some label => Some label
    | None => scan_lines impl_re lines more
    end.
Proof.
  induction idxs as [|i idxs IH]; simpl; [done|].
  destruct (i <? Py.len lines); [|done].
  destruct (lines !! Z.to_nat i) as [ln|]; [|done].
  destruct (Re.search Re.fn_pattern ln); [done|].
  by destruct (Re.search impl_re ln).
Qed.

(** The loop body on an index inside the list. *)
Lemma scan_lines_cons impl_re (lines : list string) i more ln :
  0 ≤ i → lines !! Z.to_nat i = Some ln →
  scan_lines impl_re lines (i :: more)
  = match line_label impl_re ln with
    | Some label => Some label
    | None => scan_lines impl_re lines more
    end.
Proof.
  intros Hi Hln. simpl.
  assert ((i <? Py.len lines) = true) as ->.
  { apply Z.ltb_lt. apply lookup_lt_Some in Hln. unfold Py.len. lia. }
  rewrite Hln. unfold line_label.
  destruct (Re.search Re.fn_pattern ln); [done|].
  by destruct (Re.search impl_re ln).
Qed.

Lemma line_label_declares impl_re ln :
  declares impl_re ln = false ↔ line_label impl_re ln = None.
Proof.
  unfold declares, line_label.
  destruct (Re.search Re.fn_pattern ln); [done|].
  by destruct (Re.search impl_re ln).
Qed.

(** The nearest declaring line of the window decides the label. *)
Lemma scan_range_nearest impl_re (lines : list string) window n i ln label :
  Z.max 0 (n - window) < i ≤ n - 1 →
  lines !! Z.to_nat i = Some ln →
  line_label impl_re ln = Some label →
  (∀ j ln', i < j ≤ n - 1 → lines !! Z.to_nat j = Some ln' →
            declares impl_re ln' = false) →
  scan_lines impl_re lines (scan_range window n) = Some label.
Proof.
  intros Hi Hln Hlabel Hnear. unfold scan_range.
  rewrite (range_down_app _ i) by lia.
  rewrite scan_lines_app, scan_lines_no_declaration.
  - rewrite range_down_cons by lia.
    rewrite (scan_lines_cons _ _ _ _ ln) by first [done|lia].
    by rewrite Hlabel.
  - intros j ln' Hj. apply Hnear. apply elem_of_range_down in Hj. lia.
Qed.

(** X4: in both scripts the label is that of the nearest line, walking
    back from the target line, on which a pattern matches: the function
    name if the function pattern matches that line, else its impl label;
    lines further back are not consulted. *)
Theorem extract_function_at_line_nearest :
  (∀ content n i ln label,
     Z.max 0 (n - 20) < i ≤ n - 1 →
     Py.split_newline content !! Z.to_nat i = Some ln →
     line_label Html.impl_pattern ln = Some label →
     (∀ j ln', i < j ≤ n - 1 →
               Py.split_newline content !! Z.to_nat j = Some ln' →
               declares Html.impl_pattern ln' = false) →
     Html.extract_function_at_line content n = label)
  ∧ (∀ d file_path content n i ln label,
       d file_path = Json.Text content →
       Z.max 0 (n - 30) < i ≤ n - 1 →
       Py.readlines content !! Z.to_nat i = Some ln →
       line_label Json.impl_pattern ln = Some label →
       (∀ j ln', i < j ≤ n - 1 →
                 Py.readlines content !! Z.to_nat j = Some ln' →
                 declares Json.impl_pattern ln' = false) →
       Json.extract_function_at_line d file_path n = label).
Proof.
  split.
  - intros content n i ln label Hi Hln Hlabel Hnear.
    unfold Html.extract_function_at_line.
    by rewrite (scan_range_nearest _ _ 20 n i ln label).
  - intros d file_path content n i ln label Hd Hi Hln Hlabel Hnear.
    unfold Json.extract_function_at_line, Json.try_body, Json.read_lines.
    rewrite Hd. simpl.
    by rewrite (scan_range_nearest _ _ 30 n i ln label).
Qed.

Lemma extract_function_at_line_nearest_witness :
  Html.extract_function_at_line sample_source 5 = "go".
Proof.
  apply (proj1 extract_function_at_line_nearest sample_source 5 2
               "    pub fn go(&self) {" "go").
  - lia.
  - vm_compute. reflexivity.
  - vm_compute. reflexivity.
  - intros j ln' Hj. assert (j = 3 ∨ j = 4) as [-> | ->] by lia;
      intros [= <-]; vm_compute; reflexivity.
Defined.

(** X5: a target line at or before line 1, or so far past the end of the
    file that the whole window lies behind its last line, gets "unknown"
    in both scripts. *)
Theorem extract_function_at_line_outside_file :
  (∀ content n,
     n ≤ 1 ∨ Py.len (Py.split_newline content) + 20 ≤ n →
     Html.extract_function_at_line content n = "unknown")
  ∧ (∀ d file_path content n,
       d file_path = Json.Text content →
       n ≤ 1 ∨ Py.len (Py.readlines content) + 30 ≤ n →
       Json.extract_function_at_line d file_path n = "unknown").
Proof.
  assert (∀ impl_re (lines : list string) window n,
            n ≤ 1 ∨ Py.len lines + window ≤ n →
            scan_lines impl_re lines (scan_range window n) = None) as Hscan.
  { intros impl_re lines window n Hn. apply scan_lines_no_declaration.
    intros i ln Hi Hln. apply elem_of_scan_range in Hi.
    apply lookup_lt_Some in Hln. unfold Py.len in Hn. lia. }
  split.
  - intros content n Hn. unfold Html.extract_function_at_line.
    by rewrite Hscan.
  - intros d file_path content n Hd Hn.
    unfold Json.extract_function_at_line, Json.try_body, Json.read_lines.
    rewrite Hd. simpl. by rewrite Hscan.
Qed.

Lemma extract_function_at_line_outside_file_witness :
  Html.extract_function_at_line sample_source 26 = "unknown".
Proof.
  apply (proj1 extract_function_at_line_outside_file sample_source 26).
  right. vm_compute. discriminate.
Defined.

(** X6: the loop is monotone in its window: a label found with a window
    is the label found with every larger window, on the same lines and
    patterns; a larger window can only turn "unknown" into a label. *)
Theorem scan_lines_wider_window impl_re (lines : list string) w w' n label :
  w ≤ w' →
  scan_lines impl_re lines (scan_range w n) = Some label →
  scan_lines impl_re lines (scan_range w' n) = Some label.
Proof.
  intros Hw Hscan. unfold scan_range in *.
  destruct (decide (Z.max 0 (n - w) ≤ Z.max 0 (n - 1))) as [Hle|Hgt].
  - rewrite (range_down_app _ (Z.max 0 (n - w))) by lia.
    by rewrite scan_lines_app, Hscan.
  - rewrite range_down_nil in Hscan by lia. done.
Qed.

Lemma scan_lines_wider_window_witness :
  scan_lines Json.impl_pattern (Py.readlines sample_source) (scan_range 30 5)
  = Some "go".
Proof.
  apply (scan_lines_wider_window _ _ 20 30 5 "go"); [lia|].
  vm_compute. reflexivity.
Defined.

End scan_facts.

(** ** The shape of the labels *)

Section label_facts.
Import Re.

Lemma string_length_app (s t : string) :
  String.length (s +:+ t) = (String.length s + String.length t)%nat.
Proof.
  induction s as [|c s IH]; [done|].
  change (String c s +:+ t) with (String c (s +:+ t)). simpl. by rewrite IH.
Qed.

Lemma substring_app (s t : string) :
  substring 0 (String.length s) (s +:+ t) = s.
Proof.
  induction s as [|c s IH]; [by destruct t|].
  change (String c s +:+ t) with (String c (s +:+ t)). simpl. by rewrite IH.
Qed.

Lemma consumed_app (s t : string) : consumed (s +:+ t) t = s.
Proof.
  unfold consumed. rewrite string_length_app.
  replace (String.length s + String.length t - String.length t)%nat
    with (String.length s) by lia.
  apply substring_app.
Qed.

Lemma one_inv p k st res :
  one p k st = Some res →
  ∃ c t, rest st = String c t ∧ p c = true
         ∧ k (MState (Some c) t (closed st)) = Some res.
Proof.
  unfold one. destruct (rest st) as [|c t]; [done|].
  destruct (p c) eqn:Hp; [|done]. eauto.
Qed.

Lemma greedy_inv p k o t g res :
  greedy p k o t g = Some res →
  ∃ w t' o', t = w +:+ t' ∧ string_forall p w = true
             ∧ k (MState o' t' g) = Some res.
Proof.
  revert o. induction t as [|c t IH]; intros o; simpl.
  - intros H. by exists EmptyString, EmptyString, o.
  - destruct (p c) eqn:Hp; [|intros H; by exists EmptyString, (String c t), o].
    destruct (greedy p k (Some c) t g) eqn:E.
    + intros [= <-]. apply IH in E as (w & t' & o' & -> & Hw & Hk).
      exists (String c w), t', o'. split_and!; [done| |done].
      simpl. by rewrite Hp.
    + intros H. by exists EmptyString, (String c t), o.
Qed.

(** A group that holds one character of [p] and then characters of [q]
    closes on such a text. *)
Lemma exec_ident_group n p q k st res :
  exec (Grp n (Cat (Cls p) (Star q))) k st = Some res →
  ∃ st' c w, k st' = Some res
             ∧ closed st' = (n, String c w) :: closed st
             ∧ p c = true ∧ string_forall q w = true.
Proof.
  simpl. intros (c & t & Hrest & Hp & H)%one_inv. simpl in H.
  apply greedy_inv in H as (w & t' & o' & -> & Hw & Hk).
  eexists _, c, w. split; [exact Hk|]. simpl. split_and!; [|done..].
  rewrite Hrest. do 2 f_equal.
  change (String c (w +:+ t')) with (String c w +:+ t').
  apply consumed_app.
Qed.

Lemma exec_cat_tail r1 r2 k st res :
  exec (Cat r1 r2) k st = Some res → ∃ st', exec r2 k st' = Some res.
Proof. simpl. apply exec_calls. Qed.

Lemma search_exec r ln m :
  search r ln = Some m →
  ∃ st, exec r (λ st', Some (closed st')) st = Some m.
Proof.
  unfold search. generalize (@None ascii) as o.
  induction ln as [|c ln IH]; intros o; simpl.
  - destruct (exec r _ _) eqn:E; [|done]. intros [= <-]. eauto.
  - destruct (exec r _ _) eqn:E; [|by apply IH]. intros [= <-]. eauto.
Qed.

Lemma group_head n s more : group n ((n, s) :: more) = s.
Proof. unfold group. simpl. by rewrite decide_True. Qed.

(** Group 3 of a match of the function pattern is an identifier. *)
Lemma fn_group_identifier ln m :
  search fn_pattern ln = Some m → identifier ident_char (group 3 m) = true.
Proof.
  intros (st & H)%search_exec. unfold fn_pattern in H.
  do 5 apply exec_cat_tail in H as (? & H).
  apply exec_ident_group in H as (st' & c & w & [= <-] & -> & Hc & Hw).
  rewrite group_head. simpl. by rewrite Hc, Hw.
Qed.

(** Group 1 of a match of the impl pattern is a type name. *)
Lemma impl_group_identifier tail ln m :
  search (impl_pattern tail) ln = Some m →
  identifier tail (group 1 m) = true.
Proof.
  intros (st & H)%search_exec. unfold impl_pattern in H.
  do 3 apply exec_cat_tail in H as (? & H).
  apply exec_ident_group in H as (st' & c & w & [= <-] & -> & Hc & Hw).
  rewrite group_head. simpl. by rewrite Hc, Hw.
Qed.

Lemma scan_lines_label impl_re (lines : list string) idxs label :
  scan_lines impl_re lines idxs = Some label →
  ∃ ln, ln ∈ lines ∧ line_label impl_re ln = Some label.
Proof.
  induction idxs as [|i idxs IH]; simpl; [done|].
  destruct (i <? Py.len lines); [|done].
  destruct (lines !! Z.to_nat i) as [ln|] eqn:Hln; [|done].
  intros H. destruct (line_label impl_re ln) as [l|] eqn:Hl.
  - exists ln. split; [by eapply list_elem_of_lookup_2|].
    unfold line_label in *.
    destruct (Re.search Re.fn_pattern ln); [congruence|].
    destruct (Re.search impl_re ln); [congruence|done].
  - apply IH. unfold line_label in Hl.
    destruct (Re.search Re.fn_pattern ln); [done|].
    by destruct (Re.search impl_re ln).
Qed.

Lemma line_label_shape tail ln label :
  line_label (impl_pattern tail) ln = Some label →
  identifier ident_char label = true
  ∨ ∃ t, label = "impl " +:+ t ∧ identifier tail t = true.
Proof.
  unfold line_label.
  destruct (search fn_pattern ln) as [m|] eqn:Hfn.
  - intros [= <-]. left. by eapply fn_group_identifier.
  - destruct (search (impl_pattern tail) ln) as [m|] eqn:Himpl; [|done].
    intros [= <-]. right. eexists. split; [done|].
    by eapply impl_group_identifier.
Qed.

(** X7: every label is "unknown", or a function name made of a letter or
    underscore followed by letters, digits and underscores, or "impl "
    followed by such a name, in which the direct-JSON script also lets
    the characters < and > through. *)
Theorem extract_function_at_line_label_shape :
  (∀ content n,
     let label := Html.extract_function_at_line content n in
     label = "unknown"
     ∨ identifier ident_char label = true
     ∨ ∃ t, label = "impl " +:+ t ∧ identifier ident_char t = true)
  ∧ (∀ d file_path n,
       let label := Json.extract_function_at_line d file_path n in
       label = "unknown"
       ∨ identifier ident_char label = true
       ∨ ∃ t, label = "impl " +:+ t ∧ identifier ident_char_angle t = true).
Proof.
  split.
  - intros content n. cbv zeta. unfold Html.extract_function_at_line.
    destruct (scan_lines _ _ _) as [label|] eqn:Hs; [|by left].
    right. apply scan_lines_label in Hs as (ln & _ & Hl).
    by apply line_label_shape in Hl.
  - intros d file_path n. cbv zeta.
    unfold Json.extract_function_at_line, Json.try_body, Json.read_lines.
    destruct (d file_path) as [| |content]; [by left..|]. simpl.
    destruct (scan_lines _ _ _) as [label|] eqn:Hs; [|by left].
    right. apply scan_lines_label in Hs as (ln & _ & Hl).
    by apply line_label_shape in Hl.
Qed.

End label_facts.

(** ** More on the per-file analysis *)

Section analysis_facts.

Lemma has_hits_json t : has_hits t → Html.hits t = Py.Ok (Json.hits t).
Proof. intros [h Hh]. unfold Html.hits, Json.hits. by rewrite Hh. Qed.

Lemma html_counted_has_hits traces :
  Forall has_hits traces →
  Py.traverse (λ t, h ← Html.hits t; Py.Ok (t, h)) traces
  = Py.Ok ((λ t, (t, Json.hits t)) <$> traces).
Proof.
  unfold Py.traverse. induction 1 as [|t traces Ht _ IH]; [done|].
  simpl. rewrite (has_hits_json t Ht). simpl. by rewrite IH.
Qed.

Lemma html_counted_missing traces :
  ¬ Forall has_hits traces →
  Py.traverse (λ t, h ← Html.hits t; Py.Ok (t, h)) traces
  = Py.Raise Py.KeyError.
Proof.
  unfold Py.traverse. induction traces as [|t traces IH]; intros Hn.
  - destruct Hn. constructor.
  - simpl. destruct (Html.hits t) as [h|e] eqn:Hh; simpl.
    + rewrite IH; [done|]. intros Hall. apply Hn. constructor; [|done].
      unfold Html.hits in Hh. destruct (stats t) as [[h'|]|] eqn:Hs; [|done..].
      by exists h'.
    + unfold Html.hits in Hh. by destruct (stats t) as [[h'|]|]; simplify_eq.
Qed.

Lemma filter_pair_length (traces : list trace) :
  length (filter (λ th : trace * Z, 0 < th.2)
            ((λ t, (t, Json.hits t)) <$> traces))
  = length (filter (λ t, 0 < Json.hits t) traces).
Proof.
  induction traces as [|t traces IH]; [done|].
  rewrite fmap_cons. destruct (decide (0 < Json.hits t)) as [H|H].
  - rewrite !filter_cons_True by done. simpl. by rewrite IH.
  - by rewrite !filter_cons_False by done.
Qed.

Lemma filter_pair_lines (traces : list trace) :
  (λ th : trace * Z, line th.1)
    <$> filter (λ th : trace * Z, th.2 = 0)
          ((λ t, (t, Json.hits t)) <$> traces)
  = line <$> filter (λ t, Json.hits t = 0) traces.
Proof.
  induction traces as [|t traces IH]; [done|].
  rewrite fmap_cons. destruct (decide (Json.hits t = 0)) as [H|H].
  - rewrite !filter_cons_True by done. rewrite !fmap_cons. by rewrite IH.
  - by rewrite !filter_cons_False by done.
Qed.

(** X8: whenever the direct-JSON analysis returns, it returns the path it
    was given and the number of traces as the total, and a trace without
    ['stats'], or whose ['stats'] lacks ['Line'], has been counted with the
    default of zero hits: its line is among the uncovered line numbers. *)
Theorem json_analyze_defaults file_path traces a :
  Json.analyze_file_coverage file_path traces = Py.Ok a →
  Json.path a = file_path
  ∧ Json.total_lines a = Py.len traces
  ∧ ∀ t, t ∈ traces → ¬ has_hits t →
         line t ∈ Json.uncovered_line_numbers a.
Proof.
  destruct (json_analyze_ok file_path traces) as (q & -> & _).
  intros [= <-]. simpl. split_and!; [done..|].
  intros t Ht Hh. apply list_elem_of_fmap. exists t. split; [done|].
  apply list_elem_of_filter. split; [|done].
  unfold Json.hits. destruct (stats t) as [[h|]|] eqn:Hs; [|done..].
  destruct Hh. by exists h.
Qed.

Lemma json_analyze_defaults_witness :
  ∃ a, Json.analyze_file_coverage "src/a.rs"
         [Trace 1 (Some (Some 2)); Trace 2 (Some None); Trace 3 None]
       = Py.Ok a
       ∧ Json.total_lines a = 3
       ∧ 3 ∈ Json.uncovered_line_numbers a.
Proof.
  eexists. split; [vm_compute; reflexivity|].
  destruct (json_analyze_defaults "src/a.rs"
              [Trace 1 (Some (Some 2)); Trace 2 (Some None); Trace 3 None]
              _ eq_refl) as (_ & Ht & Hu).
  split; [exact Ht|]. apply (Hu (Trace 3 None)).
  - rewrite !elem_of_cons. auto.
  - intros [h Hh]. discriminate Hh.
Defined.

(** X9: the HTML analysis has no default for the hit count: a single trace
    without ['stats'] or without ['stats']['Line'] makes it raise
    [KeyError], so whenever it returns every trace carried its count. *)
Theorem html_analyze_key_error fd :
  (¬ Forall has_hits (default [] (Html.fd_traces fd)) →
   Html.analyze_file_coverage fd = Py.Raise Py.KeyError)
  ∧ (∀ a, Html.analyze_file_coverage fd = Py.Ok a →
          Forall has_hits (default [] (Html.fd_traces fd))).
Proof.
  assert (¬ Forall has_hits (default [] (Html.fd_traces fd)) →
          Html.analyze_file_coverage fd = Py.Raise Py.KeyError) as Hraise.
  { intros Hn. unfold Html.analyze_file_coverage.
    by rewrite (html_counted_missing _ Hn). }
  split; [exact Hraise|]. intros a Ha.
  apply Forall_forall. intros t Ht.
  destruct (stats t) as [[h|]|] eqn:Hs; [by exists h|exfalso..].
  all: rewrite Hraise in Ha; [discriminate|].
  all: intros Hall; rewrite Forall_forall in Hall.
  all: destruct (Hall t Ht) as [h Hh]; congruence.
Qed.

Lemma html_analyze_key_error_witness :
  Html.analyze_file_coverage
    (Html.FileData ["src"; "a.rs"] "fn a() {}"
       (Some [Trace 1 (Some (Some 2)); Trace 2 (Some None)]))
  = Py.Raise Py.KeyError.
Proof.
  apply (proj1 (html_analyze_key_error _)). simpl.
  intros H. apply Forall_cons in H as [_ H].
  apply Forall_cons in H as [[h Hh] _]. discriminate Hh.
Defined.

Lemma count_split (traces : list trace) :
  Forall (λ t, 0 ≤ Json.hits t) traces →
  (length (filter (λ t, (0 < Json.hits t)%Z) traces)
   + length (filter (λ t, Json.hits t = 0%Z) traces))%nat
  = length traces.
Proof.
  induction 1 as [|t traces Ht _ IH]; [done|].
  rewrite !filter_cons.
  destruct (decide (0 < Json.hits t)), (decide (Json.hits t = 0));
    simpl; lia.
Qed.

(** X10: when no hit count is negative, the uncovered count a script
    reports is the number of uncovered line numbers it lists. *)
Theorem uncovered_count_matches_list :
  (∀ file_path traces a,
     Forall (λ t, 0 ≤ Json.hits t) traces →
     Json.analyze_file_coverage file_path traces = Py.Ok a →
     Json.uncovered_lines a = Py.len (Json.uncovered_line_numbers a))
  ∧ (∀ fd a,
       Forall carries_hits (default [] (Html.fd_traces fd)) →
       Html.analyze_file_coverage fd = Py.Ok a →
       Html.uncovered_lines a = Py.len (Html.uncovered_line_numbers a)).
Proof.
  split.
  - intros file_path traces a Hnn.
    destruct (json_analyze_ok file_path traces) as (q & -> & _).
    intros [= <-]. simpl. rewrite sum_ones. unfold Py.len.
    rewrite length_fmap. apply count_split in Hnn. lia.
  - intros fd a Hc Ha.
    assert (Forall has_hits (default [] (Html.fd_traces fd))) as Hall.
    { eapply Forall_impl; [exact Hc|]. intros t (h & Hh & _). by exists h. }
    assert (Forall (λ t, 0 ≤ Json.hits t) (default [] (Html.fd_traces fd)))
      as Hnn.
    { eapply Forall_impl; [exact Hc|]. intros t (h & Hh & H0).
      unfold Json.hits. by rewrite Hh. }
    pose proof (html_counted_has_hits _ Hall) as Hcount.
    unfold Html.analyze_file_coverage in Ha. rewrite Hcount in Ha.
    simpl in Ha.
    destruct (percentage _ _) as [q|]; [|done]. simpl in Ha.
    injection Ha as <-. simpl.
    rewrite sum_ones, filter_pair_lines. unfold Py.len.
    rewrite filter_pair_length, length_fmap. apply count_split in Hnn. lia.
Qed.

Lemma uncovered_count_matches_list_witness :
  ∃ a, Json.analyze_file_coverage "src/b.rs" large_file = Py.Ok a
       ∧ Json.uncovered_lines a = Py.len (Json.uncovered_line_numbers a).
Proof.
  destruct (json_analyze_ok "src/b.rs" large_file) as (q & Ha & _).
  eexists. split; [exact Ha|].
  apply (proj1 uncovered_count_matches_list "src/b.rs" large_file);
    [|exact Ha].
  repeat constructor; vm_compute; discriminate.
Defined.

Lemma percentage_bounds covered total q :
  0 ≤ covered ≤ total →
  percentage covered total = Py.Ok q → (0 <= q)%Q ∧ (q <= 100)%Q.
Proof.
  intros Hc Hq.
  destruct (percentage_ok covered total) as (q' & Hq' & H0 & Hpos).
  rewrite Hq in Hq'. injection Hq' as <-.
  destruct (decide (0 < total)) as [Ht|Ht].
  - rewrite (Hpos Ht). destruct total as [|t|t]; [lia| |lia].
    unfold Qle, Qdiv, Qmult, Qinv, inject_Z. simpl. split; nia.
  - rewrite H0 by lia. split; by vm_compute.
Qed.

(** X11: every percentage a script computes for a file lies between 0
    and 100. *)
Theorem coverage_percent_bounds :
  (∀ file_path traces a,
     Json.analyze_file_coverage file_path traces = Py.Ok a →
     (0 <= Json.coverage_percent a)%Q ∧ (Json.coverage_percent a <= 100)%Q)
  ∧ (∀ fd a,
       Html.analyze_file_coverage fd = Py.Ok a →
       (0 <= Html.coverage_percent a)%Q
       ∧ (Html.coverage_percent a <= 100)%Q).
Proof.
  split.
  - intros file_path traces a.
    destruct (json_analyze_ok file_path traces) as (q & -> & Hq).
    intros [= <-]. simpl.
    apply (percentage_bounds _ _ _ (covered_bounds _ traces) Hq).
  - intros fd a Ha. unfold Html.analyze_file_coverage in Ha.
    destruct (Py.traverse _ _) as [counted|] eqn:Hc; [|done]. simpl in Ha.
    destruct (percentage _ _) as [q|] eqn:Hq; [|done]. simpl in Ha.
    injection Ha as <-. simpl.
    apply (percentage_bounds _ _ _) in Hq; [done|].
    pose proof (covered_bounds (λ th : trace * Z, 0 < th.2) counted) as H.
    apply traverse_length in Hc. unfold Py.len in *. lia.
Qed.

Lemma coverage_percent_bounds_witness :
  ∃ a, Json.analyze_file_coverage "src/a.rs" small_file = Py.Ok a
       ∧ (0 <= Json.coverage_percent a)%Q
       ∧ (Json.coverage_percent a <= 100)%Q.
Proof.
  destruct (json_analyze_ok "src/a.rs" small_file) as (q & Ha & _).
  eexists. split; [exact Ha|].
  exact (proj1 coverage_percent_bounds "src/a.rs" small_file _ Ha).
Defined.

(** X12: on traces that all have their hit count the two scripts compute
    the same totals, percentage and uncovered line numbers. *)
Theorem analyses_agree file_path fd :
  Forall has_hits (default [] (Html.fd_traces fd)) →
  ∃ a b,
    Json.analyze_file_coverage file_path (default [] (Html.fd_traces fd))
    = Py.Ok a
    ∧ Html.analyze_file_coverage fd = Py.Ok b
    ∧ Json.total_lines a = Html.total_lines b
    ∧ Json.covered_lines a = Html.covered_lines b
    ∧ Json.uncovered_lines a = Html.uncovered_lines b
    ∧ Json.coverage_percent a = Html.coverage_percent b
    ∧ Json.uncovered_line_numbers a = Html.uncovered_line_numbers b.
Proof.
  intros Hall. set (traces := default [] (Html.fd_traces fd)) in *.
  destruct (json_analyze_ok file_path traces) as (q & -> & Hq).
  pose proof (html_counted_has_hits _ Hall) as Hc.
  unfold Html.analyze_file_coverage. fold traces. rewrite Hc. simpl.
  assert (Py.sum ((λ _, 1)
                    <$> filter (λ th : trace * Z, 0 < th.2)
                          ((λ t, (t, Json.hits t)) <$> traces))
          = Py.sum ((λ _, 1) <$> filter (λ t, 0 < Json.hits t) traces))
    as ->.
  { rewrite !sum_ones. unfold Py.len. by rewrite filter_pair_length. }
  rewrite Hq. simpl. eexists _, _. split; [done|]. split; [done|].
  simpl. split_and!; [done..|]. by rewrite filter_pair_lines.
Qed.

Lemma analyses_agree_witness :
  ∃ a b,
    Json.analyze_file_coverage "src/b.rs" large_file = Py.Ok a
    ∧ Html.analyze_file_coverage
        (Html.FileData ["src"; "b.rs"] "fn b() {}" (Some large_file))
      = Py.Ok b
    ∧ Json.uncovered_line_numbers a = Html.uncovered_line_numbers b.
Proof.
  destruct (analyses_agree "src/b.rs"
              (Html.FileData ["src"; "b.rs"] "fn b() {}" (Some large_file)))
    as (a & b & Ha & Hb & _ & _ & _ & _ & Hl).
  { repeat constructor; eexists; reflexivity. }
  exists a, b. split; [exact Ha|]. split; [exact Hb|exact Hl].
Defined.

End analysis_facts.

(** ** Order and completeness of the groups *)

Section group_order_facts.

Lemma elem_of_first_occurrences l x : x ∈ first_occurrences l ↔ x ∈ l.
Proof.
  induction l as [|y l IH]; [done|]. simpl.
  rewrite !elem_of_cons, list_elem_of_filter, IH.
  destruct (decide (x = y)); tauto.
Qed.

Lemma NoDup_first_occurrences l : NoDup (first_occurrences l).
Proof.
  induction l as [|y l IH]; simpl; constructor.
  - rewrite list_elem_of_filter. tauto.
  - by apply NoDup_filter.
Qed.

Lemma first_occurrences_snoc l x :
  first_occurrences (l ++ [x])
  = if decide (x ∈ l) then first_occurrences l else first_occurrences l ++ [x].
Proof.
  induction l as [|y l IH]; [done|]. simpl. rewrite IH.
  destruct (decide (x ∈ l)) as [Hx|Hx].
  - rewrite decide_True; [done|]. by right.
  - rewrite filter_app. destruct (decide (x = y)) as [->|Hxy].
    + rewrite decide_True by (by left).
      rewrite (filter_cons_False _ y []) by tauto.
      by rewrite filter_nil, app_nil_r.
    + rewrite decide_False by (rewrite elem_of_cons; tauto).
      by rewrite (filter_cons_True _ x []) by done.
Qed.

Lemma keys_append_to (d : list (string * list Z)) k v :
  (Json.append_to d k v).*1 = if decide (k ∈ d.*1) then d.*1 else d.*1 ++ [k].
Proof.
  induction d as [|[k' l] d IH]; [done|]. cbn [Json.append_to].
  destruct (String.eqb k' k) eqn:E.
  - apply String.eqb_eq in E as ->. rewrite !fmap_cons. cbn [fst].
    rewrite decide_True; [done|]. by left.
  - apply String.eqb_neq in E. rewrite !fmap_cons, IH. cbn [fst].
    destruct (decide (k ∈ d.*1)) as [Hk|Hk].
    + rewrite decide_True; [done|]. by right.
    + rewrite decide_False; [done|]. rewrite elem_of_cons. intros [?|?]; auto.
Qed.

Lemma concat_append_to (d : list (string * list Z)) k v :
  concat (Json.append_to d k v).*2 ≡ₚ concat d.*2 ++ [v].
Proof.
  induction d as [|[k' l] d IH]; [done|]. cbn [Json.append_to].
  destruct (String.eqb k' k); rewrite !fmap_cons; cbn [snd concat].
  - by rewrite <-!app_assoc, (Permutation_app_comm [v]).
  - by rewrite IH, app_assoc.
Qed.

Lemma group_fold_keys (label : Z → string) lines done
    (d : list (string * list Z)) :
  d.*1 = first_occurrences (label <$> done) →
  concat d.*2 ≡ₚ done →
  let g := fold_left (λ fl n, Json.append_to fl (label n) n) lines d in
  g.*1 = first_occurrences (label <$> (done ++ lines))
  ∧ concat g.*2 ≡ₚ done ++ lines.
Proof.
  revert done d. induction lines as [|n lines IH]; intros done d Hk Hc.
  - simpl. by rewrite app_nil_r.
  - simpl. rewrite (cons_middle n done lines), app_assoc. apply IH.
    + rewrite keys_append_to, fmap_snoc, first_occurrences_snoc, Hk.
      destruct (decide (label n ∈ label <$> done)) as [Hin|Hin].
      * rewrite decide_True; [done|]. by apply elem_of_first_occurrences.
      * rewrite decide_False; [done|]. by rewrite elem_of_first_occurrences.
    + by rewrite concat_append_to, Hc.
Qed.

Lemma lookup_label_elem_of (d : list (string * list Z)) name ns :
  NoDup d.*1 → (name, ns) ∈ d → lookup_label name d = Some ns.
Proof.
  induction d as [|[k v] d IH]; intros Hnd Hin; [by apply elem_of_nil in Hin|].
  simpl in *. apply NoDup_cons in Hnd as [Hk Hnd].
  apply elem_of_cons in Hin as [[= -> ->]|Hin].
  - by rewrite String.eqb_refl.
  - destruct (String.eqb k name) eqn:E; [|by apply IH].
    apply String.eqb_eq in E as ->. destruct Hk.
    apply list_elem_of_fmap. by exists (name, ns).
Qed.

(** X13: the groups of the direct-JSON script come in the order in which
    their labels first occur among the lines processed (the first 50);
    no label has two groups and no group is empty; every group holds the
    processed lines of its label, in order; together the groups hold each
    processed line once. *)
Theorem group_uncovered_by_function_groups d file_path uncovered_lines :
  let label := Json.extract_function_at_line d file_path in
  let processed := Py.slice_to 50 uncovered_lines in
  let groups := Json.group_uncovered_by_function d file_path uncovered_lines in
  groups.*1 = first_occurrences (label <$> processed)
  ∧ NoDup groups.*1
  ∧ (∀ name lines, (name, lines) ∈ groups →
       lines ≠ [] ∧ lines = filter (λ n, label n = name) processed)
  ∧ concat groups.*2 ≡ₚ processed.
Proof.
  cbv zeta. unfold Json.group_uncovered_by_function.
  set (label := Json.extract_function_at_line d file_path).
  set (processed := Py.slice_to 50 uncovered_lines).
  destruct (group_fold_keys label processed [] []) as [Hk Hc]; [done..|].
  simpl in Hk, Hc.
  set (groups := fold_left _ processed []) in *.
  assert (NoDup groups.*1) as Hnd.
  { rewrite Hk. apply NoDup_first_occurrences. }
  split_and!; [done..| |done].
  intros name lines Hin.
  apply (lookup_label_elem_of _ _ _ Hnd) in Hin.
  unfold groups in Hin.
  rewrite (group_fold_lookup label _ [] []) in Hin by done.
  simpl in Hin.
  destruct (filter _ processed) as [|n ns] eqn:Hf; [done|].
  by injection Hin as <-.
Qed.

Lemma find_step_order content done (acc : list (Z * string) * gset string) n :
  let label := Html.extract_function_at_line content in
  (∀ f, f ∈ acc.2 ↔ f ∈ acc.1.*2)
  ∧ acc.1.*2
    = first_occurrences (filter (λ f, f ≠ "unknown") (label <$> done))
  ∧ acc.1.*1 `sublist_of` done →
  let r := Html.find_step content acc n in
  (∀ f, f ∈ r.2 ↔ f ∈ r.1.*2)
  ∧ r.1.*2
    = first_occurrences
        (filter (λ f, f ≠ "unknown") (label <$> (done ++ [n])))
  ∧ r.1.*1 `sublist_of` done ++ [n].
Proof.
  intros label. destruct acc as [funcs seen]. intros (Hseen & Hk & Hsub).
  simpl in *. unfold Html.find_step. simpl. fold label.
  assert (filter (λ f, f ≠ "unknown") (label <$> done ++ [n])
          = filter (λ f, f ≠ "unknown") (label <$> done)
            ++ (if decide (label n ≠ "unknown") then [label n] else []))
    as Hfilter.
  { rewrite fmap_snoc, filter_app. by f_equal. }
  rewrite Hfilter.
  destruct (bool_decide (label n ∉ seen)) eqn:Hfresh; simpl.
  - apply bool_decide_eq_true in Hfresh.
    destruct (String.eqb (label n) "unknown") eqn:Hu; simpl.
    + apply String.eqb_eq in Hu. split_and!; [done| |].
      * rewrite decide_False by (by intros []). by rewrite app_nil_r.
      * by apply sublist_inserts_r.
    + apply String.eqb_neq in Hu. split_and!.
      * intros f. rewrite fmap_app, elem_of_app, elem_of_union, Hseen.
        simpl. by rewrite elem_of_singleton, list_elem_of_singleton.
      * rewrite decide_True by done.
        rewrite fmap_app, first_occurrences_snoc, Hk. simpl.
        rewrite decide_False; [done|].
        intros Hin. apply Hfresh, Hseen. rewrite Hk.
        by apply elem_of_first_occurrences.
      * rewrite fmap_app. simpl. by apply sublist_app.
  - apply bool_decide_eq_false in Hfresh.
    assert (label n ∈ seen) as Hin by (by apply dec_stable).
    split_and!; [done| |by apply sublist_inserts_r].
    destruct (decide (label n ≠ "unknown")) as [Hu|Hu].
    + rewrite first_occurrences_snoc, decide_True; [done|].
      apply elem_of_first_occurrences. rewrite <-Hk. by apply Hseen.
    + by rewrite app_nil_r.
Qed.

Lemma find_fold_order content lines done (acc : list (Z * string) * gset string) :
  let label := Html.extract_function_at_line content in
  (∀ f, f ∈ acc.2 ↔ f ∈ acc.1.*2)
  ∧ acc.1.*2
    = first_occurrences (filter (λ f, f ≠ "unknown") (label <$> done))
  ∧ acc.1.*1 `sublist_of` done →
  let r := fold_left (Html.find_step content) lines acc in
  r.1.*2 = first_occurrences
             (filter (λ f, f ≠ "unknown") (label <$> (done ++ lines)))
  ∧ r.1.*1 `sublist_of` done ++ lines.
Proof.
  intros label. revert done acc.
  induction lines as [|n lines IH]; intros done acc H.
  - simpl. rewrite app_nil_r. tauto.
  - simpl. rewrite (cons_middle n done lines), app_assoc.
    apply IH. by apply find_step_order.
Qed.

(** X14: the labels [find_uncovered_functions] returns are the labels
    other than "unknown" of the uncovered lines, each once, in the order
    of first occurrence; the lines it pairs them with are uncovered lines,
    in their order. *)
Theorem find_uncovered_functions_order (fa : Html.analysis) :
  let label := Html.extract_function_at_line (Html.content fa) in
  let found := Html.find_uncovered_functions fa in
  found.*2 = first_occurrences
               (filter (λ f, f ≠ "unknown")
                  (label <$> Html.uncovered_line_numbers fa))
  ∧ found.*1 `sublist_of` Html.uncovered_line_numbers fa.
Proof.
  intros label found.
  apply (find_fold_order (Html.content fa) (Html.uncovered_line_numbers fa)
           [] ([], ∅)).
  simpl. split_and!; [|done..].
  intros f. by rewrite elem_of_empty, elem_of_nil.
Qed.

End group_order_facts.

(** ** What [print_summary] shows, and in which order *)

Section print_facts.

Section sort_facts.

Context {A K : Type} (lt : K → K → bool) (key : A → K).
Hypothesis lt_asym : ∀ a b, lt a b = true → lt b a = false.
Hypothesis lt_negtrans :
  ∀ a b c, lt a b = false → lt b c = false → lt a c = false.

Lemma insert_by_Permutation x l : Py.insert_by lt key x l ≡ₚ x :: l.
Proof.
  induction l as [|y l IH]; [done|]. simpl.
  destruct (lt (key y) (key x)); [|done].
  by rewrite IH, Permutation_swap.
Qed.

Lemma insert_by_sorted x l :
  StronglySorted (λ a b, lt (key b) (key a) = false) l →
  StronglySorted (λ a b, lt (key b) (key a) = false) (Py.insert_by lt key x l).
Proof.
  induction 1 as [|y l Hl IH Hy]; simpl; [by repeat constructor|].
  destruct (lt (key y) (key x)) eqn:E.
  - constructor; [done|].
    rewrite insert_by_Permutation. constructor; [by apply lt_asym|done].
  - constructor; [by constructor|].
    constructor; [done|]. eapply Forall_impl; [exact Hy|].
    intros z Hz. simpl in *. by eapply lt_negtrans.
Qed.

Lemma insert_by_filter q x l :
  filter (λ a, tied lt (key a) q = true) (Py.insert_by lt key x l)
  = filter (λ a, tied lt (key a) q = true) (x :: l).
Proof.
  induction l as [|y l IH]; [done|]. simpl.
  destruct (lt (key y) (key x)) eqn:E; [|done].
  rewrite filter_cons, IH, !filter_cons.
  destruct (decide (tied lt (key y) q = true)) as [Hy|Hy]; [|done].
  destruct (decide (tied lt (key x) q = true)) as [Hx|Hx]; [|done].
  exfalso. unfold tied in Hx, Hy.
  apply andb_true_iff in Hx as [_ Hx], Hy as [Hy _].
  apply negb_true_iff in Hx, Hy.
  rewrite (lt_negtrans _ _ _ Hy Hx) in E. discriminate.
Qed.

Lemma sorted_by_spec (l : list A) :
  Py.sorted_by lt key l ≡ₚ l
  ∧ StronglySorted (λ a b, lt (key b) (key a) = false) (Py.sorted_by lt key l)
  ∧ ∀ q, filter (λ a, tied lt (key a) q = true) (Py.sorted_by lt key l)
         = filter (λ a, tied lt (key a) q = true) l.
Proof.
  unfold Py.sorted_by. induction l as [|x l (Hp & Hs & Hf)]; simpl.
  - split_and!; [done|constructor|done].
  - split_and!.
    + by rewrite insert_by_Permutation, Hp.
    + by apply insert_by_sorted.
    + intros q. by rewrite insert_by_filter, !filter_cons, Hf.
Qed.

End sort_facts.

(** X16: both scripts show the files in ascending order of the percentage
    as the script holds it, a float compared with [<]: no file comes
    before one whose float is smaller, each analyzed file is shown once,
    and files whose floats [<] does not order stay in the order of the
    report, also when their exact percentages differ.  The rounding and
    the comparison are parameters; [<] is taken to be asymmetric and its
    complement transitive, as on the floats that are numbers. *)
Theorem sorted_analyses_order {F} (float_of : Q → F) (lt : F → F → bool) :
  (∀ a b, lt a b = true → lt b a = false) →
  (∀ a b c, lt a b = false → lt b c = false → lt a c = false) →
  (∀ analyses,
     Json.sorted_analyses float_of lt analyses ≡ₚ analyses
     ∧ StronglySorted
         (λ a b, lt (float_of (Json.coverage_percent b))
                    (float_of (Json.coverage_percent a)) = false)
         (Json.sorted_analyses float_of lt analyses)
     ∧ ∀ q, filter (λ a, tied lt (float_of (Json.coverage_percent a)) q = true)
              (Json.sorted_analyses float_of lt analyses)
            = filter (λ a, tied lt (float_of (Json.coverage_percent a)) q
                           = true)
                analyses)
  ∧ (∀ all_analyses,
       Html.sorted_analyses float_of lt all_analyses ≡ₚ all_analyses
       ∧ StronglySorted
           (λ a b, lt (float_of (Html.coverage_percent b))
                      (float_of (Html.coverage_percent a)) = false)
           (Html.sorted_analyses float_of lt all_analyses)
       ∧ ∀ q, filter (λ a, tied lt (float_of (Html.coverage_percent a)) q
                           = true)
                (Html.sorted_analyses float_of lt all_analyses)
              = filter (λ a, tied lt (float_of (Html.coverage_percent a)) q
                             = true)
                  all_analyses).
Proof.
  intros Hasym Htrans. split; intros l.
  - apply (sorted_by_spec lt (λ x, float_of (Json.coverage_percent x)));
      assumption.
  - apply (sorted_by_spec lt (λ x, float_of (Html.coverage_percent x)));
      assumption.
Qed.

(** With percentages cut to their whole part, two in three and thirty-three
    in fifty are tied and stay in the order of the report, although the
    second is the smaller exactly. *)
Lemma sorted_analyses_order_witness :
  Json.sorted_analyses Qfloor Z.ltb [two_in_three; thirty_three_in_fifty]
  ≡ₚ [two_in_three; thirty_three_in_fifty]
  ∧ filter (λ a, tied Z.ltb (Qfloor (Json.coverage_percent a)) 66 = true)
      (Json.sorted_analyses Qfloor Z.ltb [two_in_three; thirty_three_in_fifty])
    = [two_in_three; thirty_three_in_fifty].
Proof.
  destruct (proj1 (sorted_analyses_order Qfloor Z.ltb
                     (λ a b H, proj2 (Z.ltb_ge b a)
                                 (Z.lt_le_incl a b (proj1 (Z.ltb_lt a b) H)))
                     (λ a b c H1 H2,
                        proj2 (Z.ltb_ge a c)
                          (Z.le_trans c b a (proj1 (Z.ltb_ge b c) H2)
                             (proj1 (Z.ltb_ge a b) H1))))
              [two_in_three; thirty_three_in_fifty]) as (Hp & _ & Hf).
  split; [exact Hp|]. rewrite (Hf 66). vm_compute. reflexivity.
Defined.

Lemma string_app_assoc (a b c : string) : (a +:+ b) +:+ c = a +:+ b +:+ c.
Proof.
  induction a as [|x a IH]; [done|].
  change ((String x a +:+ b) +:+ c) with (String x ((a +:+ b) +:+ c)).
  by rewrite IH.
Qed.

Lemma split_cons sep s : ∃ h r, Py.split sep s = h :: r.
Proof.
  destruct s as [|c s]; simpl; [by eauto|].
  destruct (Ascii.eqb c sep); [by eauto|].
  destruct (Py.split sep s); eauto.
Qed.

Lemma join_cons_char sep c h r :
  Py.join sep (String c h :: r) = String c (Py.join sep (h :: r)).
Proof. by destruct r. Qed.

(** Joining what [split] gave restores the text. *)
Lemma join_split sep s : Py.join (String sep "") (Py.split sep s) = s.
Proof.
  induction s as [|c s IH]; [done|]. simpl.
  destruct (split_cons sep s) as (h & r & Hs). rewrite Hs in *.
  destruct (Ascii.eqb c sep) eqn:E.
  - apply Ascii.eqb_eq in E as ->.
    change (Py.join (String sep "") ("" :: h :: r))
      with (String sep (Py.join (String sep "") (h :: r))).
    by rewrite IH.
  - by rewrite join_cons_char, IH.
Qed.

Lemma join_snoc sep l x :
  l ≠ [] → Py.join sep (l ++ [x]) = Py.join sep l +:+ sep +:+ x.
Proof.
  induction l as [|a l IH]; [done|]. intros _.
  destruct l as [|b l]; [done|].
  change (Py.join sep ((a :: b :: l) ++ [x]))
    with (a +:+ sep +:+ Py.join sep ((b :: l) ++ [x])).
  rewrite IH by done.
  change (Py.join sep (a :: b :: l)) with (a +:+ sep +:+ Py.join sep (b :: l)).
  by rewrite !string_app_assoc.
Qed.

(** X17: the direct-JSON script shows a path of at most 70 characters as
    it is; a longer one is cut to ".../" and its last three segments, so
    the file name stays; a longer one of at most three segments is shown
    whole behind ".../". *)
Theorem shorten_path_spec (p : string) :
  ((String.length p ≤ 70)%nat → Json.shorten_path p = p)
  ∧ ((70 < String.length p)%nat →
     (length (Py.split "/" p) ≤ 3)%nat →
     Json.shorten_path p = ".../" +:+ p)
  ∧ ((70 < String.length p)%nat →
     ∃ dir name,
       last (Py.split "/" p) = Some name
       ∧ Json.shorten_path p = dir +:+ "/" +:+ name
       ∧ Json.shorten_path p
         = Py.join "/" ("..." :: Py.slice_last 3 (Py.split "/" p))).
Proof.
  unfold Json.shorten_path. split_and!.
  - intros H. apply Nat.ltb_ge in H. by rewrite H.
  - intros H Hn. apply Nat.ltb_lt in H. rewrite H.
    unfold Py.slice_last.
    replace (length (Py.split "/" p) - 3)%nat with 0%nat by lia.
    rewrite drop_0.
    destruct (split_cons "/" p) as (h & r & Hs). rewrite Hs.
    change (Py.join "/" ("..." :: h :: r))
      with (".../" +:+ Py.join "/" (h :: r)).
    by rewrite <-Hs, join_split.
  - intros H. apply Nat.ltb_lt in H. rewrite H.
    destruct (split_cons "/" p) as (h & r & Hs).
    set (parts := Py.split "/" p) in *.
    assert (∃ init name, Py.slice_last 3 parts = init ++ [name]
                         ∧ last parts = Some name) as (init & name & Hl & Hn).
    { unfold Py.slice_last.
      destruct (last parts) as [name|] eqn:Hlast.
      - apply last_Some in Hlast as [front ->].
        rewrite length_app. simpl.
        destruct (decide (length front + 1 - 3 ≤ length front)%nat); [|lia].
        rewrite drop_app_le by done. eauto.
      - rewrite Hs in Hlast. by apply last_None in Hlast. }
    exists (Py.join "/" ("..." :: init)), name. split; [done|].
    split; [|done]. rewrite Hl.
    change ("..." :: init ++ [name]) with (("..." :: init) ++ [name]).
    by rewrite join_snoc.
Qed.

Lemma shorten_path_spec_witness : Json.shorten_path "src/lib.rs" = "src/lib.rs".
Proof.
  apply (proj1 (shorten_path_spec "src/lib.rs")).
  apply Nat.leb_le. vm_compute. reflexivity.
Defined.

End print_facts.

(** ** The report loader of the HTML script *)

Section loader_facts.

Lemma string_app_cons c (s t : string) : String c s +:+ t = String c (s +:+ t).
Proof. done. Qed.

Lemma prefix_app_inv sub s :
  String.prefix sub s = true → ∃ post, s = sub +:+ post.
Proof.
  revert s. induction sub as [|c sub IH]; intros s; [by eauto|].
  destruct s as [|d s]; simpl; [done|].
  destruct (ascii_dec c d) as [->|]; [|done].
  intros (post & ->)%IH. by exists post.
Qed.

Lemma prefix_app sub post : String.prefix sub (sub +:+ post) = true.
Proof.
  induction sub as [|c sub IH]; [by destruct post|].
  rewrite string_app_cons. simpl. by destruct (ascii_dec c c).
Qed.

Lemma find_Some sub s i :
  Py.find sub s = Some i →
  ∃ pre post, s = pre +:+ sub +:+ post ∧ String.length pre = i.
Proof.
  revert i. induction s as [|c s IH]; intros i.
  - cbn [Py.find]. destruct (String.prefix sub "") eqn:E; [|done].
    intros [= <-]. apply prefix_app_inv in E as (post & E).
    by exists "", post.
  - cbn [Py.find]. destruct (String.prefix sub (String c s)) eqn:E.
    + intros [= <-]. apply prefix_app_inv in E as (post & E).
      by exists "", post.
    + destruct (Py.find sub s) as [j|]; [|done]. intros [= <-].
      destruct (IH j eq_refl) as (pre & post & -> & <-).
      by exists (String c pre), post.
Qed.

Lemma find_None sub s :
  Py.find sub s = None → ∀ pre post, s ≠ pre +:+ sub +:+ post.
Proof.
  induction s as [|c s IH]; cbn [Py.find].
  - destruct (String.prefix sub "") eqn:E; [done|]. intros _ pre post H.
    destruct pre as [|d pre]; [|done].
    pose proof (prefix_app sub post) as Hp.
    change ("" +:+ sub +:+ post) with (sub +:+ post) in H.
    rewrite <-H in Hp. congruence.
  - destruct (String.prefix sub (String c s)) eqn:E; [done|].
    destruct (Py.find sub s) eqn:Hf; [done|]. intros _ pre post H.
    destruct pre as [|d pre].
    + pose proof (prefix_app sub post) as Hp.
      change ("" +:+ sub +:+ post) with (sub +:+ post) in H.
      rewrite <-H in Hp. congruence.
    + rewrite string_app_cons in H. injection H as _ H.
      by apply (IH eq_refl pre post).
Qed.

Lemma prefix_nil s : String.prefix "" s = true.
Proof. by destruct s. Qed.

Lemma find_char_cons c d s :
  Py.find (String c "") (String d s)
  = if Ascii.eqb c d then Some 0%nat else S <$> Py.find (String c "") s.
Proof.
  cbn [Py.find]. simpl. destruct (ascii_dec c d) as [->|H].
  - by rewrite prefix_nil, Ascii.eqb_refl.
  - apply Ascii.eqb_neq in H. by rewrite H.
Qed.

Lemma eqb_sym_false c d : Ascii.eqb c d = false → Ascii.eqb d c = false.
Proof. rewrite !Ascii.eqb_neq. congruence. Qed.

Lemma find_char_Some c s k :
  Py.find (String c "") s = Some k →
  ∃ before after, s = before +:+ String c after
                  ∧ String.length before = k
                  ∧ string_forall (λ x, negb (Ascii.eqb x c)) before = true.
Proof.
  revert k. induction s as [|d s IH]; intros k; [done|].
  rewrite find_char_cons. destruct (Ascii.eqb c d) eqn:E.
  - apply Ascii.eqb_eq in E as ->. intros [= <-]. by exists "", s.
  - destruct (Py.find (String c "") s) as [j|]; [|done]. intros [= <-].
    destruct (IH j eq_refl) as (before & after & -> & <- & Hb).
    exists (String d before), after. split_and!; [done..|]. simpl.
    by rewrite Hb, (eqb_sym_false _ _ E).
Qed.

Lemma find_char_app c before after :
  string_forall (λ x, negb (Ascii.eqb x c)) before = true →
  Py.find (String c "") (before +:+ String c after)
  = Some (String.length before).
Proof.
  induction before as [|d before IH]; intros H.
  - change ("" +:+ String c after) with (String c after).
    by rewrite find_char_cons, Ascii.eqb_refl.
  - simpl in H. apply andb_true_iff in H as [Hd H].
    rewrite string_app_cons, find_char_cons.
    apply negb_true_iff, eqb_sym_false in Hd. by rewrite Hd, (IH H).
Qed.

Lemma find_char_None c s :
  string_forall (λ x, negb (Ascii.eqb x c)) s = true →
  Py.find (String c "") s = None.
Proof.
  induction s as [|d s IH]; [done|]. cbn [string_forall].
  intros [Hd H]%andb_true_iff. rewrite find_char_cons.
  apply negb_true_iff, eqb_sym_false in Hd. by rewrite Hd, (IH H).
Qed.

Lemma string_drop_app (a b : string) :
  Py.string_drop (String.length a) (a +:+ b) = b.
Proof. induction a as [|c a IH]; [done|]. by rewrite string_app_cons. Qed.

Lemma substring_drop n m s :
  substring n m s = substring 0 m (Py.string_drop n s).
Proof.
  revert s. induction n as [|n IH]; intros s; [done|].
  destruct s as [|c s]; [by destruct m|]. simpl. apply IH.
Qed.

Lemma slice_app (a b c : string) :
  Py.slice (a +:+ b +:+ c) (String.length a)
    (String.length a + String.length b) = b.
Proof.
  unfold Py.slice.
  replace (String.length a + String.length b - String.length a)%nat
    with (String.length b) by lia.
  by rewrite substring_drop, string_drop_app, substring_app.
Qed.

(** X18: when [extract_var_data] returns, what it handed to [json.loads]
    is the text between the first "var data = " of the report and the
    first semicolon after it; that text holds no semicolon. *)
Theorem extract_var_data_returns {J} (loads : string → option J) content data :
  Html.extract_var_data loads content = Py.Returns data →
  ∃ pre json_str post,
    content = pre +:+ "var data = " +:+ json_str +:+ ";" +:+ post
    ∧ Py.find "var data = " content = Some (String.length pre)
    ∧ string_forall not_semicolon json_str = true
    ∧ loads json_str = Some data.
Proof.
  unfold Html.extract_var_data.
  destruct (Py.find "var data = " content) as [data_start|] eqn:Hm; [|done].
  destruct (find_Some _ _ _ Hm) as (pre & rest & -> & <-).
  unfold Py.find_from.
  rewrite <-string_length_app, <-string_app_assoc, string_drop_app.
  destruct (Py.find ";" rest) as [k|] eqn:Hk; [|done]. simpl.
  destruct (find_char_Some _ _ _ Hk) as (json_str & post & -> & <- & Hns).
  rewrite string_app_assoc.
  rewrite string_length_app.
  change (pre +:+ "var data = " +:+ json_str +:+ String ";" post)
    with (pre +:+ "var data = " +:+ json_str +:+ ";" +:+ post).
  rewrite <-(string_app_assoc pre "var data = "), <-string_length_app.
  rewrite slice_app.
  destruct (loads json_str) as [v|] eqn:Hl; [|done]. intros [= <-].
  exists pre, json_str, post. by rewrite string_app_assoc.
Qed.

Lemma extract_var_data_returns_witness :
  ∃ pre json_str post,
    "<script>var data = {};</script>"
    = pre +:+ "var data = " +:+ json_str +:+ ";" +:+ post
    ∧ string_forall not_semicolon json_str = true.
Proof.
  destruct (extract_var_data_returns (λ s, Some s)
              "<script>var data = {};</script>" "{}")
    as (pre & json_str & post & Hc & _ & Hn & _).
  { vm_compute. reflexivity. }
  exists pre, json_str, post. split; [exact Hc|exact Hn].
Defined.

(** X19: a report that embeds a payload without a semicolon as
    "var data = <payload>;", the marker not occurring earlier, gives
    exactly that payload to [json.loads]; the script returns what
    [json.loads] makes of it and exits with status 1 if it raises. *)
Theorem extract_var_data_embedded {J} (loads : string → option J)
    pre json_str post :
  let content := pre +:+ "var data = " +:+ json_str +:+ ";" +:+ post in
  Py.find "var data = " content = Some (String.length pre) →
  string_forall not_semicolon json_str = true →
  Html.extract_var_data loads content
  = match loads json_str with
    | Some data => Py.Returns data
    | None => Py.Exit 1
    end.
Proof.
  intros content Hm Hns. unfold Html.extract_var_data. rewrite Hm.
  unfold Py.find_from, content.
  rewrite <-string_length_app, <-(string_app_assoc pre "var data = ").
  rewrite string_drop_app.
  change (json_str +:+ ";" +:+ post) with (json_str +:+ String ";" post).
  rewrite (find_char_app ";" json_str post Hns). simpl.
  change (json_str +:+ String ";" post) with (json_str +:+ ";" +:+ post).
  by rewrite slice_app.
Qed.

Lemma extract_var_data_embedded_witness :
  Html.extract_var_data (λ s, Some s)
    ("<script>" +:+ "var data = " +:+ "{}" +:+ ";" +:+ "</script>")
  = Py.Returns "{}".
Proof.
  apply (extract_var_data_embedded (λ s, Some s) "<script>" "{}" "</script>");
    vm_compute; reflexivity.
Defined.

(** X20: [extract_var_data] exits with status 1 when the report does not
    hold "var data = ", and when no semicolon follows its first
    occurrence. *)
Theorem extract_var_data_exits {J} (loads : string → option J) :
  (∀ content,
     (∀ pre post, content ≠ pre +:+ "var data = " +:+ post) →
     Html.extract_var_data loads content = Py.Exit 1)
  ∧ (∀ pre rest,
       Py.find "var data = " (pre +:+ "var data = " +:+ rest)
       = Some (String.length pre) →
       string_forall not_semicolon rest = true →
       Html.extract_var_data loads (pre +:+ "var data = " +:+ rest)
       = Py.Exit 1).
Proof.
  split.
  - intros content Hno. unfold Html.extract_var_data.
    destruct (Py.find "var data = " content) as [i|] eqn:Hm; [|done].
    destruct (find_Some _ _ _ Hm) as (pre & post & -> & _).
    by destruct (Hno pre post).
  - intros pre rest Hm Hns. unfold Html.extract_var_data. rewrite Hm.
    unfold Py.find_from.
    rewrite <-string_length_app, <-(string_app_assoc pre "var data = ").
    rewrite string_drop_app. by rewrite (find_char_None ";" rest Hns).
Qed.

Lemma extract_var_data_exits_witness :
  Html.extract_var_data (λ s, Some s) ("<html>" +:+ "var data = " +:+ "{}")
  = Py.Exit 1.
Proof.
  apply (proj2 (extract_var_data_exits (λ s, Some s)) "<html>" "{}");
    vm_compute; reflexivity.
Defined.

End loader_facts.
